(** * fedmsg-atomic-composer: the [AtomicComposer] consumer

    A shallow embedding of [fedmsg_atomic_composer/composer.py].  The
    consumer's methods become functions in a state-and-exception monad over
    an explicit world: the filesystem, the store of Python dict objects, the
    log, the commands handed to [subprocess.Popen], and the runs handed to
    [reactor.callInThread]. *)

From stdpp Require Import base option strings gmap sets list pretty.
From Stdlib Require Import ZArith String Ascii.

Open Scope string_scope.
Open Scope Z_scope.

(** ** Strings and POSIX paths *)

Module Path.

Definition slash : ascii := "/"%char.

Definition is_slash (c : ascii) : bool := Ascii.eqb c slash.

(** [needle in hay] of Python, on byte strings. *)
Fixpoint contains (needle hay : string) : bool :=
  String.prefix needle hay ||
  match hay with
  | EmptyString => false
  | String _ rest => contains needle rest
  end.

Definition startswith (pre s : string) : bool := String.prefix pre s.

Fixpoint endswith_slash (s : string) : bool :=
  match s with
  | EmptyString => false
  | String c EmptyString => is_slash c
  | String _ rest => endswith_slash rest
  end.

Fixpoint all_slash (s : string) : bool :=
  match s with
  | EmptyString => true
  | String c rest => is_slash c && all_slash rest
  end.

(** [s.rstrip('/')]. *)
Fixpoint rstrip_slash (s : string) : string :=
  match s with
  | EmptyString => EmptyString
  | String c rest =>
      match rstrip_slash rest with
      | EmptyString => if is_slash c then EmptyString else String c EmptyString
      | rest' => String c rest'
      end
  end.

(** [(p[:i], p[i:])] for [i = p.rfind('/') + 1]. *)
Fixpoint cut (p : string) : string * string :=
  match p with
  | EmptyString => (EmptyString, EmptyString)
  | String c rest =>
      let '(h, t) := cut rest in
      match h with
      | EmptyString =>
          if is_slash c then (String c EmptyString, rest)
          else (EmptyString, String c rest)
      | _ => (String c h, t)
      end
  end.

(** [posixpath.dirname]. *)
Definition dirname (p : string) : string :=
  let head := fst (cut p) in
  if negb (String.eqb head "") && negb (all_slash head)
  then rstrip_slash head else head.

(** [posixpath.basename]. *)
Definition basename (p : string) : string := snd (cut p).

(** [posixpath.join] of two components. *)
Definition join (a b : string) : string :=
  if startswith "/" b then b
  else if String.eqb a "" || endswith_slash a then a ++ b
  else a ++ "/" ++ b.

(** [p] is [root] or lies below it. *)
Definition below (root p : string) : bool :=
  String.eqb p root ||
  String.prefix (if endswith_slash root then root else root ++ "/") p.

End Path.

(** ** Python values, exceptions, log records *)

(** Values held in a release dict or in an argument vector.  Nested payloads
    (the treefile) are values: no method of the consumer assigns inside
    one. *)
#[local] Set Warnings "-register-all".

Inductive pyval : Type :=
| VStr (s : string)
| VInt (z : Z)
| VList (l : list pyval)
| VDict (d : list (string * pyval)).

Inductive errno : Type := EEXIST | ENOENT | ENOTDIR | EISDIR.

Inductive exn : Type :=
| KeyError (k : option string)
| TypeError
| AttributeError
| IndexError
| OSError (e : errno) (path : string)
| IOError (e : errno) (path : string)
| RuntimeError.

Inductive result (A : Type) : Type :=
| Ok (a : A)
| Raise (e : exn).
Arguments Ok {A} a.
Arguments Raise {A} e.

Inductive level : Type := DEBUG | INFO | WARN | ERROR.

(** An inbound message: [msg['body']['topic']] and [msg['body']['msg']]. *)
Record event : Type := Event {
  topic : string;
  fields : gmap string string
}.

(** A log record is its level, the message object and the arguments, as
    [logging] keeps them. *)
Inductive logarg : Type :=
| LStr (s : string)
| LVal (v : pyval)
| LArgv (cmd : list pyval)
| LEvent (e : event)
| LFields (d : gmap string string)
| LDelta (dt : Z).

Definition log_record : Type := level * list logarg.

(** Object identities of dicts. *)
Definition loc : Type := positive.

(** What a path that is not a directory holds. *)
Inductive fnode : Type :=
| Regular (content : string)
| Symlink (target : string).

(** The outcome of a process that was started: [communicate()]'s pair, the
    return code, the filesystem it leaves, and the time it took. *)
Record proc : Type := Proc {
  p_out : string;
  p_err : string;
  p_returncode : Z;
  p_dirs : gset string;
  p_files : gmap string fnode;
  p_elapsed : Z
}.

(** The world of the hub process.  Paths are identified with their
    spelling and links are leaves: a directory is known under the spelling
    it was made with, and the model is that of a filesystem reached
    through canonical paths, without a doubled slash, a [.] or [..]
    component or a link on the way, where a file that is opened for
    writing is not a link.  [w_releases] is [self.releases]; its
    keys are strings, or [None] for Python's [None].  [w_calls] lists the
    argument vectors handed to [Popen], oldest first, [w_threads] the dicts
    handed to [reactor.callInThread]. *)
Record world : Type := World {
  w_dirs : gset string;
  w_files : gmap string fnode;
  w_heap : gmap loc (gmap string pyval);
  w_releases : gmap (option string) loc;
  w_log : list log_record;
  w_calls : list (list string);
  w_threads : list loc;
  w_clock : Z
}.

(** What the consumer takes from outside the repository: the processes it
    starts, the library formatters, the packaged template and the names
    [tempfile] proposes. *)
Record Env : Type := {
  popen : list string → gset string → gmap string fnode → option proc;
  str_format : string → gmap string pyval → result string;
  mock_tmpl : string;
  render : string → gmap string pyval → result string;
  json_dumps : pyval → result string;
  py_str : pyval → string;
  tmp_candidates : list string
}.

(** The hub options [__init__] copies onto the consumer ([self.releases] is
    part of the world). *)
Record consumer : Type := Consumer {
  git_repo : string;
  output_dir : string;
  log_dir : string
}.

(** ** The monad: state and exceptions *)

Definition M (A : Type) : Type := world → result A * world.

#[export] Instance M_ret : MRet M := λ A a w, (Ok a, w).

#[export] Instance M_bind : MBind M := λ A B f m w,
  match m w with
  | (Ok a, w') => f a w'
  | (Raise e, w') => (Raise e, w')
  end.

Definition raise {A : Type} (e : exn) : M A := λ w, (Raise e, w).

Definition when (b : bool) (m : M unit) : M unit :=
  if b then m else mret tt.

Definition set_fs (ds : gset string) (fs : gmap string fnode) (w : world) : world :=
  World ds fs (w_heap w) (w_releases w) (w_log w) (w_calls w) (w_threads w)
        (w_clock w).

Definition set_heap (h : gmap loc (gmap string pyval)) (w : world) : world :=
  World (w_dirs w) (w_files w) h (w_releases w) (w_log w) (w_calls w)
        (w_threads w) (w_clock w).

Definition add_log (r : log_record) (w : world) : world :=
  World (w_dirs w) (w_files w) (w_heap w) (w_releases w) (w_log w ++ [r])
        (w_calls w) (w_threads w) (w_clock w).

Definition add_call (argv : list string) (w : world) : world :=
  World (w_dirs w) (w_files w) (w_heap w) (w_releases w) (w_log w)
        (w_calls w ++ [argv]) (w_threads w) (w_clock w).

Definition add_thread (r : loc) (w : world) : world :=
  World (w_dirs w) (w_files w) (w_heap w) (w_releases w) (w_log w)
        (w_calls w) (w_threads w ++ [r]) (w_clock w).

Definition advance (dt : Z) (w : world) : world :=
  World (w_dirs w) (w_files w) (w_heap w) (w_releases w) (w_log w)
        (w_calls w) (w_threads w) (w_clock w + dt).

(** The dict object at [r]. *)
Definition dict_at (r : loc) (w : world) : gmap string pyval :=
  default ∅ (w_heap w !! r).

(** ** Primitives of the interpreter and the library *)

Definition log (lv : level) (args : list logarg) : M unit :=
  λ w, (Ok tt, add_log (lv, args) w).

(** [release[k]]. *)
Definition getitem (r : loc) (k : string) : M pyval := λ w,
  match dict_at r w !! k with
  | Some v => (Ok v, w)
  | None => (Raise (KeyError (Some k)), w)
  end.

(** [release[k] = v]. *)
Definition setitem (r : loc) (k : string) (v : pyval) : M unit := λ w,
  (Ok tt, set_heap (<[r := <[k := v]> (dict_at r w)]> (w_heap w)) w).

(** A value used where only a [str] works; [e] is what Python raises for
    anything else. *)
Definition need_str (e : exn) (v : pyval) : M string :=
  match v with
  | VStr s => mret s
  | _ => raise e
  end.

Definition exists_b (p : string) (w : world) : bool :=
  bool_decide (p ∈ w_dirs w) || bool_decide (is_Some (w_files w !! p)).

(** The name of the entry [p] stands for: the kernel ignores the slashes
    a name ends with. *)
Definition entry_name (p : string) : string :=
  if Path.all_slash p then p else Path.rstrip_slash p.

(** The directory a new entry [p] goes into is there.  The empty parent is
    the current directory; the empty path names no entry. *)
Definition parent_ok (p : string) (w : world) : bool :=
  let d := Path.dirname (entry_name p) in
  negb (String.eqb p "")
  && (String.eqb d "" || bool_decide (d ∈ w_dirs w)).

(** What the kernel reports for a path it cannot walk: [ENOTDIR] when the
    first component that is not a directory is a file, [ENOENT] when it is
    missing ([seen] is the part of the path walked so far). *)
Definition stuck_at (seen : string) (w : world) : errno :=
  match w_files w !! seen with
  | Some (Regular _) => ENOTDIR
  | _ => ENOENT
  end.

Fixpoint walk (seen rest : string) (w : world) : errno :=
  match rest with
  | EmptyString => stuck_at seen w
  | String c rest' =>
      if Path.is_slash c && negb (String.eqb seen "")
         && negb (Path.endswith_slash seen)
         && negb (bool_decide (seen ∈ w_dirs w))
      then stuck_at seen w
      else walk (seen ++ String c EmptyString) rest' w
  end.

(** The [errno] of creating [p] where [parent_ok] does not hold. *)
Definition parent_errno (p : string) (w : world) : errno :=
  walk "" (Path.dirname (entry_name p)) w.

Definition isdir (p : string) : M bool :=
  λ w, (Ok (bool_decide (p ∈ w_dirs w)), w).

(** [os.mkdir]. *)
Definition mkdir (p : string) : M unit := λ w,
  if exists_b p w then (Raise (OSError EEXIST p), w)
  else if negb (parent_ok p w) then (Raise (OSError (parent_errno p w) p), w)
  else (Ok tt, set_fs ({[p]} ∪ w_dirs w) (w_files w) w).

(** [os.makedirs]: split off the last component, make the head first when
    it is missing, then [mkdir] the name. *)
Fixpoint makedirs_rec (fuel : nat) (name : string) : M unit :=
  match fuel with
  | O => raise RuntimeError
  | S fuel' =>
      let head := Path.dirname name in
      let tail := Path.basename name in
      let '(head, tail) :=
        if String.eqb tail "" then (Path.dirname head, Path.basename head)
        else (head, tail) in
      λ w,
        if negb (String.eqb head "") && negb (String.eqb tail "")
           && negb (exists_b head w)
        then
          match makedirs_rec fuel' head w with
          | (Raise (OSError EEXIST _), w') | (Ok _, w') =>
              if String.eqb tail "." then (Ok tt, w') else mkdir name w'
          | (Raise e, w') => (Raise e, w')
          end
        else mkdir name w
  end.

Definition makedirs (name : string) : M unit :=
  makedirs_rec (S (String.length name)) name.

(** [os.symlink]: only a directory can be made under a name that ends
    with a slash. *)
Definition symlink (src dst : string) : M unit := λ w,
  if exists_b dst w then (Raise (OSError EEXIST dst), w)
  else if negb (parent_ok dst w) then (Raise (OSError (parent_errno dst w) dst), w)
  else if Path.endswith_slash dst then (Raise (OSError ENOENT dst), w)
  else (Ok tt, set_fs (w_dirs w) (<[dst := Symlink src]> (w_files w)) w).

(** [file(path, 'w')]: create or truncate.  [path] is taken not to be a
    link, which would be written through. *)
Definition open_w (path : string) : M unit := λ w,
  if bool_decide (path ∈ w_dirs w) then (Raise (IOError EISDIR path), w)
  else if negb (parent_ok path w) then (Raise (IOError (parent_errno path w) path), w)
  else if Path.endswith_slash path then (Raise (IOError EISDIR path), w)
  else (Ok tt, set_fs (w_dirs w) (<[path := Regular ""]> (w_files w)) w).

Definition write (path text : string) : M unit := λ w,
  (Ok tt, set_fs (w_dirs w) (<[path := Regular text]> (w_files w)) w).

(** [shutil.rmtree]: refuses a link or anything that is not a directory,
    otherwise removes the directory and all below it. *)
Definition rmtree (path : string) : M unit := λ w,
  match w_files w !! path with
  | Some (Symlink _) => (Raise (OSError ENOTDIR path), w)
  | Some (Regular _) => (Raise (OSError ENOTDIR path), w)
  | None =>
      if bool_decide (path ∈ w_dirs w) then
        (Ok tt,
         set_fs (filter (λ p, Path.below path p = false) (w_dirs w))
                (filter (λ kv, Path.below path kv.1 = false) (w_files w)) w)
      else (Raise (OSError ENOENT path), w)
  end.

(** [tempfile.mkdtemp]: try the proposed names in turn, skipping the ones
    that exist. *)
Fixpoint mkdtemp_from (names : list string) : M string :=
  match names with
  | [] => raise (IOError EEXIST "")
  | name :: rest => λ w,
      match mkdir name w with
      | (Ok _, w') => (Ok name, w')
      | (Raise (OSError EEXIST _), w') => mkdtemp_from rest w'
      | (Raise e, w') => (Raise e, w')
      end
  end.

Definition utcnow : M Z := λ w, (Ok (w_clock w), w).

(** A library function that reads the state, changes nothing, and may
    raise. *)
Definition eval {A : Type} (f : world → result A) : M A := λ w, (f w, w).

(** [reactor.callInThread(self.compose, release)]. *)
Definition callInThread (release : loc) : M unit :=
  λ w, (Ok tt, add_thread release w).

(** ** The consumer's methods *)

Section AtomicComposer.

Context (E : Env) (self : consumer).

(** [str(v)], as [%s] renders a value. *)
Definition to_text (v : pyval) : string :=
  match v with
  | VStr s => s
  | _ => py_str E v
  end.

(** [subprocess.Popen(cmd, ...)] followed by [communicate()]. *)
Fixpoint argv_of (cmd : list pyval) : option (list string) :=
  match cmd with
  | [] => Some []
  | VStr s :: rest => cons s <$> argv_of rest
  | _ :: _ => None
  end.

Definition Popen (cmd : list pyval) : M proc := λ w,
  match argv_of cmd with
  | None => (Raise TypeError, w)
  | Some [] => (Raise IndexError, w)
  | Some argv =>
      match popen E argv (w_dirs w) (w_files w) with
      | None => (Raise (OSError ENOENT (hd "" argv)), add_call argv w)
      | Some p =>
          (Ok p, advance (p_elapsed p)
                   (set_fs (p_dirs p) (p_files p) (add_call argv w)))
      end
  end.

Definition call (cmd : list pyval) : M (string * string * Z) :=
  log INFO [LStr "Running %s"; LArgv cmd] ;;
  p ← Popen cmd ;
  when (negb (String.eqb (p_err p) "")) (log ERROR [LStr (p_err p)]) ;;
  when (negb (p_returncode p =? 0))
       (log ERROR [LStr ("returncode = " +:+ pretty (p_returncode p))]) ;;
  mret (p_out p, p_err p, p_returncode p).

Definition cleanup (release : loc) : M unit :=
  tmp_dir ← getitem release "tmp_dir" ;
  tmp_dir ← need_str TypeError tmp_dir ;
  rmtree tmp_dir.

Definition update_configs (release : loc) : M unit :=
  tmp_dir ← getitem release "tmp_dir" ;
  tmp_dir ← need_str AttributeError tmp_dir ;
  let git_dir := Path.join tmp_dir (Path.basename (git_repo self)) in
  setitem release "git_dir" (VStr git_dir) ;;
  git_branch ← getitem release "git_branch" ;
  call [VStr "git"; VStr "clone"; VStr "-b"; git_branch;
        VStr (git_repo self); VStr git_dir] ;;
  mret tt.

(** [cmd] is a string or a list: [isinstance(cmd, list) and cmd or [cmd]]. *)
Definition mock_cmd (release : loc) (cmd : pyval) : M unit :=
  let cmd := match cmd with
             | VList (x :: l) => x :: l
             | _ => [cmd]
             end in
  mock ← getitem release "mock" ;
  mock_dir ← getitem release "mock_dir" ;
  mock_dir ← need_str TypeError mock_dir ;
  res ← call ([VStr "/usr/bin/mock"; VStr "-r"; mock;
               VStr ("--configdir=" +:+ mock_dir)] ++ cmd) ;
  log DEBUG [LStr (res.1.1)].

Definition init_mock (release : loc) : M unit :=
  mock ← getitem release "mock" ;
  let root := "/var/lib/mock/" +:+ to_text mock in
  present ← isdir root ;
  if negb present then
    mock_cmd release (VStr "--init") ;;
    log INFO [LStr "mock chroot initialized"]
  else
    mock_cmd release (VStr "--update") ;;
    log INFO [LStr "mock chroot updated"].

Definition generate_mock_config (release : loc) : M unit :=
  let mock_tmpl := mock_tmpl E in
  tmp_dir ← getitem release "tmp_dir" ;
  tmp_dir ← need_str AttributeError tmp_dir ;
  let mock_dir := Path.join tmp_dir "mock" in
  setitem release "mock_dir" (VStr mock_dir) ;;
  mock_dir' ← getitem release "mock_dir" ;
  mock ← getitem release "mock" ;
  mock ← need_str TypeError mock ;
  mock_dir' ← need_str AttributeError mock_dir' ;
  let mock_cfg := Path.join mock_dir' (mock +:+ ".cfg") in
  mkdir mock_dir ;;
  symlink "/etc/mock/site-defaults.cfg" (Path.join mock_dir "site-defaults.cfg") ;;
  symlink "/etc/mock/logging.ini" (Path.join mock_dir "logging.ini") ;;
  open_w mock_cfg ;;
  text ← eval (λ w, render E mock_tmpl (dict_at release w)) ;
  write mock_cfg text.

Definition mock_shell (release : loc) (cmd : string) : M unit :=
  mock_cmd release (VList [VStr "--shell"; VStr cmd]).

Definition ostree_init (release : loc) : M unit :=
  output_dir ← getitem release "output_dir" ;
  output_dir ← need_str AttributeError output_dir ;
  let base := Path.dirname output_dir in
  present ← isdir base ;
  when (negb present)
       (log INFO [LStr "Creating %s"; LStr base] ;; makedirs base) ;;
  log_dir ← getitem release "log_dir" ;
  log_dir ← need_str TypeError log_dir ;
  present ← isdir log_dir ;
  when (negb present)
       (log_dir ← getitem release "log_dir" ;
        log_dir ← need_str AttributeError log_dir ;
        makedirs log_dir) ;;
  tree ← getitem release "tree" ;
  tree ← need_str AttributeError tree ;
  let out := Path.join base tree in
  present ← isdir out ;
  when (negb present)
       (log_dir ← getitem release "log_dir" ;
        log_dir ← need_str AttributeError log_dir ;
        let logfile := Path.join log_dir "ostree.log" in
        mock_shell release
          ("ostree init --repo=" +:+ out +:+ " --mode=archive-z2 >"
             +:+ logfile +:+ " 2>&1")).

Definition ostree_compose (release : loc) : M unit :=
  log_dir ← getitem release "log_dir" ;
  log_dir ← need_str AttributeError log_dir ;
  let logfile := Path.join log_dir "rpm-ostree.log" in
  start ← utcnow ;
  git_dir ← getitem release "git_dir" ;
  git_dir ← need_str AttributeError git_dir ;
  let treefile := Path.join git_dir "treefile.json" in
  open_w treefile ;;
  payload ← getitem release "treefile" ;
  text ← eval (λ _, json_dumps E payload) ;
  write treefile text ;;
  output_dir ← getitem release "output_dir" ;
  mock_shell release
    ("rpm-ostree compose tree --repo=" +:+ to_text output_dir +:+ " "
       +:+ treefile +:+ " >" +:+ logfile +:+ " 2>&1") ;;
  finish ← utcnow ;
  log INFO [LStr "rpm-ostree compose complete (%s)"; LDelta (finish - start)].

Definition update_ostree_summary (release : loc) : M string :=
  name ← getitem release "name" ;
  log INFO [LStr "Updating the ostree summary for %s"; LVal name] ;;
  output_dir ← getitem release "output_dir" ;
  mock_shell release
    ("ostree --repo=" +:+ to_text output_dir +:+ " summary --update") ;;
  output_dir ← getitem release "output_dir" ;
  output_dir ← need_str AttributeError output_dir ;
  mret (Path.join output_dir "summary").

Definition compose (release : loc) : M unit :=
  update_configs release ;;
  generate_mock_config release ;;
  init_mock release ;;
  ostree_init release ;;
  ostree_compose release ;;
  update_ostree_summary release ;;
  cleanup release.

(** [copy.deepcopy(self.releases[repo])]: a new dict object with the
    same items. *)
Definition deepcopy_release (repo : option string) : M loc := λ w,
  match w_releases w !! repo with
  | None => (Raise (KeyError repo), w)
  | Some src =>
      let l := fresh (dom (w_heap w)) in
      (Ok l, set_heap (<[l := dict_at src w]> (w_heap w)) w)
  end.

(** [body['msg'][k]]. *)
Definition field (msg : event) (k : string) : M string :=
  match fields msg !! k with
  | Some v => mret v
  | None => raise (KeyError (Some k))
  end.

(** [release[key] = getattr(self, key).format] over the release's items. *)
Definition expand (release : loc) (key template : string) : M unit :=
  text ← eval (λ w, str_format E template (dict_at release w)) ;
  setitem release key (VStr text).

(** The part of [consume] after classification. *)
Definition schedule (repo : option string) : M unit :=
  release ← deepcopy_release repo ;
  tmp_dir ← mkdtemp_from (tmp_candidates E) ;
  setitem release "tmp_dir" (VStr tmp_dir) ;;
  expand release "output_dir" (output_dir self) ;;
  expand release "log_dir" (log_dir self) ;;
  callInThread release.

Definition consume (msg : event) : M unit :=
  log INFO [LEvent msg] ;;
  let topic := topic msg in
  if Path.contains "rawhide" topic then
    arch ← field msg "arch" ;
    log INFO [LStr "New rawhide %s compose ready"; LStr arch] ;;
    schedule (Some "rawhide")
  else if Path.contains "branched" topic then
    arch ← field msg "arch" ;
    branch ← field msg "branch" ;
    log INFO [LStr "New %s %s branched compose ready"; LStr branch; LStr arch] ;;
    log_field ← field msg "log" ;
    if negb (String.eqb log_field "done") then
      log WARN [LStr "Compose not done?"]
    else
      schedule (Some branch)
  else if Path.contains "updates.fedora" topic then
    log INFO [LStr "New Fedora %(release)s %(repo)s compose ready";
              LFields (fields msg)] ;;
    rel ← field msg "release" ;
    rep ← field msg "repo" ;
    schedule (Some ("f" +:+ rel +:+ "-" +:+ rep))
  else
    log WARN [LStr "Unknown topic: %s"; LStr topic] ;;
    schedule None.

End AtomicComposer.

(** ** A sample deployment

    One release, [rawhide], a hub configuration for it, and three
    environments: in [E_ok] every command succeeds and [git clone] leaves
    the clone directory; in [E_offline] [git] exits with 128 and leaves
    nothing; in [E_bad_tree] the clone succeeds and [rpm-ostree compose]
    exits with 1. *)

Module Sample.

(** [template.format] for templates whose fields are plain [{name}]. *)
Fixpoint format_go (d : gmap string pyval) (s : string)
         (name : option string) : result string :=
  match s, name with
  | EmptyString, None => Ok ""
  | EmptyString, Some _ => Raise TypeError
  | String c rest, None =>
      if Ascii.eqb c "{" then format_go d rest (Some "")
      else match format_go d rest None with
           | Ok t => Ok (String c t)
           | Raise e => Raise e
           end
  | String c rest, Some n =>
      if Ascii.eqb c "}" then
        match d !! n with
        | Some (VStr v) =>
            match format_go d rest None with
            | Ok t => Ok (v +:+ t)
            | Raise e => Raise e
            end
        | Some _ => Raise TypeError
        | None => Raise (KeyError (Some n))
        end
      else format_go d rest (Some (n +:+ String c ""))
  end.

Definition format (template : string) (d : gmap string pyval) : result string :=
  format_go d template None.

Definition run_ok (argv : list string) (ds : gset string)
           (fs : gmap string fnode) : option proc :=
  match argv with
  | "git" :: rest => Some (Proc "" "" 0 ({[List.last rest ""]} ∪ ds) fs 3)
  | _ => Some (Proc "" "" 0 ds fs 60)
  end.

Definition run_offline (argv : list string) (ds : gset string)
           (fs : gmap string fnode) : option proc :=
  match argv with
  | "git" :: _ =>
      Some (Proc "" "fatal: unable to access the repository" 128 ds fs 1)
  | _ => Some (Proc "" "" 0 ds fs 5)
  end.

Definition run_bad_tree (argv : list string) (ds : gset string)
           (fs : gmap string fnode) : option proc :=
  match argv with
  | "git" :: rest => Some (Proc "" "" 0 ({[List.last rest ""]} ∪ ds) fs 3)
  | "/usr/bin/mock" :: _ :: _ :: _ :: "--shell" :: cmd :: _ =>
      if Path.contains "rpm-ostree compose" cmd
      then Some (Proc "" "" 1 ds fs 40)
      else Some (Proc "" "" 0 ds fs 5)
  | _ => Some (Proc "" "" 0 ds fs 5)
  end.

Definition mk_env (run : list string → gset string → gmap string fnode → option proc)
  : Env :=
  {| popen := run;
     str_format := format;
     mock_tmpl := "config_opts['root'] = '${mock}'";
     render := λ t _, Ok t;
     json_dumps := λ _, Ok "{}";
     py_str := λ _, "<object>";
     tmp_candidates := ["/tmp/tmpq3XaW1"; "/tmp/tmpLw09ze"] |}.

Definition E_ok : Env := mk_env run_ok.
Definition E_offline : Env := mk_env run_offline.
Definition E_bad_tree : Env := mk_env run_bad_tree.

Definition hub : consumer :=
  {| git_repo := "https://git.fedorahosted.org/git/fedora-atomic.git";
     output_dir := "/srv/fedora-atomic/{version}/{arch}/{tree}";
     log_dir := "/srv/fedora-atomic/logs/{version}/{arch}/{tree}" |}.

Definition rawhide : gmap string pyval :=
  list_to_map
    [("name", VStr "rawhide"); ("version", VStr "rawhide");
     ("arch", VStr "x86_64"); ("tree", VStr "docker-host");
     ("git_branch", VStr "master"); ("mock", VStr "fedora-rawhide-x86_64");
     ("treefile", VDict [("ref", VStr "fedora-atomic/rawhide/x86_64/docker-host");
                         ("packages", VList [VStr "kernel"; VStr "ostree"])])].

Definition boot : world :=
  {| w_dirs := list_to_set ["/"; "/tmp"; "/etc"; "/etc/mock"; "/srv";
                            "/var"; "/var/lib"; "/var/lib/mock"];
     w_files := ∅;
     w_heap := {[ 1%positive := rawhide ]};
     w_releases := {[ Some "rawhide" := 1%positive ]};
     w_log := [];
     w_calls := [];
     w_threads := [];
     w_clock := 0 |}.

Definition rawhide_done : event :=
  Event "org.fedoraproject.prod.compose.rawhide.rsync.complete"
        {[ "arch" := "x86_64" ]}.

Definition branched_pending : event :=
  Event "org.fedoraproject.prod.compose.branched.rsync.complete"
        (list_to_map [("arch", "x86_64"); ("branch", "f21"); ("log", "pending")]).

Definition build_change : event :=
  Event "org.fedoraproject.prod.buildsys.build.state.change" ∅.

(** The world after the hub delivered [rawhide_done]; the run it
    scheduled works on the dict at location 2. *)
Definition accepted (E : Env) : world := (consume E hub rawhide_done boot).2.

End Sample.

(** ** The vocabulary of the statements *)

(** [keeps R m]: whatever [m] does and however it ends, the worlds before
    and after are related by [R]. *)
Definition keeps {A : Type} (R : relation world) (m : M A) : Prop :=
  ∀ w, R w (m w).2.

(** The store of dict objects, the releases mapping and the scheduled runs
    are what they were. *)
Definition same_store (w w' : world) : Prop :=
  w_heap w' = w_heap w ∧ w_releases w' = w_releases w
  ∧ w_threads w' = w_threads w.

(** The releases mapping is what it was, and so is every dict object
    except for the items of the one at [r] under the keys in [K]. *)
Definition store_frame (r : loc) (K : string → Prop) (w w' : world) : Prop :=
  w_releases w' = w_releases w
  ∧ (∀ l, l ≠ r → w_heap w' !! l = w_heap w !! l)
  ∧ (∀ k, ¬ K k → dict_at r w' !! k = dict_at r w !! k).

(** Only the dict at [r] was assigned to, only under keys in [K], and no
    run was scheduled. *)
Definition writes (r : loc) (K : string → Prop) (w w' : world) : Prop :=
  store_frame r K w w' ∧ w_threads w' = w_threads w.

(** Nothing but the log and new directories: what [log], the lookups and
    [os.makedirs] do to the world. *)
Definition grows (w w' : world) : Prop :=
  w_dirs w ⊆ w_dirs w' ∧ w_calls w' = w_calls w ∧ w_heap w' = w_heap w
  ∧ w_threads w' = w_threads w.

(** A property of the world that, once true, stays true. *)
Definition inv (I : world → Prop) : relation world := λ w w', I w → I w'.

(** Commands are what they were. *)
Definition same_calls (w w' : world) : Prop := w_calls w' = w_calls w.

(** The world [call] leaves when the process was started and came back
    as [p]. *)
Definition after_call (argv : list string) (p : proc) (w : world) : world :=
  let w1 := advance (p_elapsed p) (set_fs (p_dirs p) (p_files p)
              (add_call argv
                 (add_log (INFO, [LStr "Running %s"; LArgv (VStr <$> argv)]) w))) in
  let w2 := if negb (String.eqb (p_err p) "")
            then add_log (ERROR, [LStr (p_err p)]) w1 else w1 in
  if negb (p_returncode p =? 0)
  then add_log (ERROR, [LStr ("returncode = " +:+ pretty (p_returncode p))]) w2
  else w2.

(** The argument vector of a [mock] command. *)
Definition mock_argv (m md : string) (args : list string) : list string :=
  (["/usr/bin/mock"; "-r"; m; "--configdir=" +:+ md] ++ args)%list.

(** The arguments [mock_cmd] appends for a string and for a list. *)
Definition mock_args (cmd : pyval) : list pyval :=
  match cmd with
  | VList (x :: l) => x :: l
  | _ => [cmd]
  end.

(** The shell commands of steps 4, 5 and 6. *)
Definition init_cmd (out logfile : string) : string :=
  "ostree init --repo=" +:+ out +:+ " --mode=archive-z2 >" +:+ logfile +:+ " 2>&1".

Definition compose_cmd (repo treefile logfile : string) : string :=
  "rpm-ostree compose tree --repo=" +:+ repo +:+ " " +:+ treefile +:+ " >"
    +:+ logfile +:+ " 2>&1".

Definition summary_cmd (repo : string) : string :=
  "ostree --repo=" +:+ repo +:+ " summary --update".

(** The manifest [ostree_compose] writes before it runs the tool. *)
Definition manifest_written (path text : string) (w : world) : world :=
  set_fs (w_dirs w) (<[path := Regular text]> (w_files w)) w.

(** The keys the pipeline assigns. *)
Definition run_keys (k : string) : Prop := k = "git_dir" ∨ k = "mock_dir".

(** The keys [consume] assigns in the copy. *)
Definition copy_keys (k : string) : Prop :=
  k = "tmp_dir" ∨ k = "output_dir" ∨ k = "log_dir".

(** At most the run on [r] was handed to a thread. *)
Definition handed (r : loc) (w w' : world) : Prop :=
  store_frame r copy_keys w w'
  ∧ (w_threads w' = w_threads w ∨ w_threads w' = (w_threads w ++ [r])%list).

(** What an event may do to the store: nothing, or add a copy of the
    release under [repo] at a location that was free and hand it to a
    thread. *)
Definition dispatched (repo : option string) (w w' : world) : Prop :=
  w_releases w' = w_releases w
  ∧ (∀ l, l ∈ dom (w_heap w) → w_heap w' !! l = w_heap w !! l)
  ∧ (w_threads w' = w_threads w
     ∨ (∃ r src,
          w_releases w !! repo = Some src
          ∧ (r ∉ dom (w_heap w))
          ∧ w_threads w' = (w_threads w ++ [r])%list
          ∧ ∀ k, ¬ copy_keys k → dict_at r w' !! k = dict_at src w !! k)).

(** The release identifier [consume] looks up, when it gets that far. *)
Definition classify (msg : event) : option string :=
  if Path.contains "rawhide" (topic msg) then Some "rawhide"
  else if Path.contains "branched" (topic msg) then fields msg !! "branch"
  else if Path.contains "updates.fedora" (topic msg) then
    rel ← fields msg !! "release" ;
    rep ← fields msg !! "repo" ;
    Some ("f" +:+ rel +:+ "-" +:+ rep)
  else None.

Section Pipeline.

Context (E : Env) (self : consumer).

(** The [git clone] of [update_configs]. *)
Definition clone_argv (branch git_dir : string) : list string :=
  ["git"; "clone"; "-b"; branch; git_repo self; git_dir].

(** The part of [ostree_init] before it looks for the repository: the
    parent of the output directory and the log directory are made when
    they are missing. *)
Definition before_init (release : loc) : M unit :=
  output_dir ← getitem release "output_dir" ;
  output_dir ← need_str AttributeError output_dir ;
  let base := Path.dirname output_dir in
  present ← isdir base ;
  when (negb present)
       (log INFO [LStr "Creating %s"; LStr base] ;; makedirs base) ;;
  log_dir ← getitem release "log_dir" ;
  log_dir ← need_str TypeError log_dir ;
  present ← isdir log_dir ;
  when (negb present)
       (log_dir ← getitem release "log_dir" ;
        log_dir ← need_str AttributeError log_dir ;
        makedirs log_dir).

(** Steps 1 to 4, the part of [compose] before the tree is composed. *)
Definition before_compose (release : loc) : M unit :=
  update_configs E self release ;;
  generate_mock_config E release ;;
  init_mock E release ;;
  ostree_init E release.

(** Steps 1 to 6, the part of [compose] before [cleanup]. *)
Definition before_cleanup (release : loc) : M string :=
  update_configs E self release ;;
  generate_mock_config E release ;;
  init_mock E release ;;
  ostree_init E release ;;
  ostree_compose E release ;;
  update_ostree_summary E release.

End Pipeline.

(** ** More vocabulary: the dispatcher and the commands *)

(** The world with more records in the log and nothing else changed. *)
Definition logged (l : list log_record) (w : world) : world :=
  World (w_dirs w) (w_files w) (w_heap w) (w_releases w) (w_log w ++ l)
        (w_calls w) (w_threads w) (w_clock w).

(** The key [consume] looks up in [self.releases], when it gets as far as
    the lookup: [None] when it returns or raises before. *)
Definition lookup_key (msg : event) : option (option string) :=
  if Path.contains "rawhide" (topic msg) then
    _ ← fields msg !! "arch" ; Some (Some "rawhide")
  else if Path.contains "branched" (topic msg) then
    _ ← fields msg !! "arch" ;
    branch ← fields msg !! "branch" ;
    lg ← fields msg !! "log" ;
    if String.eqb lg "done" then Some (Some branch) else None
  else if Path.contains "updates.fedora" (topic msg) then
    rel ← fields msg !! "release" ;
    rep ← fields msg !! "repo" ;
    Some (Some ("f" +:+ rel +:+ "-" +:+ rep))
  else Some None.


(** The commands handed to [Popen] since [w] all satisfy [P]. *)
Definition started_only (P : list string → Prop) (w w' : world) : Prop :=
  ∃ l, w_calls w' = (w_calls w ++ l)%list ∧ Forall P l.

(** The filesystem is what it was outside the tree at [root], and nothing
    is left of that tree. *)
Definition tree_removed (root : string) (w w' : world) : Prop :=
  (∀ p, Path.below root p = true → (p ∉ w_dirs w') ∧ w_files w' !! p = None)
  ∧ (∀ p, Path.below root p = false →
          (p ∈ w_dirs w' ↔ p ∈ w_dirs w) ∧ w_files w' !! p = w_files w !! p).

(** No character of [s] is a slash: [s] is a single path component. *)
Fixpoint noslash (s : string) : bool :=
  match s with
  | EmptyString => true
  | String c rest => negb (Path.is_slash c) && noslash rest
  end.

(** Directories may have appeared; no file was written or removed and no
    command was handed to [Popen]. *)
Definition only_new_dirs (w w' : world) : Prop :=
  w_dirs w ⊆ w_dirs w' ∧ w_files w' = w_files w ∧ w_calls w' = w_calls w.

(** ** Worlds of the sample run *)

(** The world a run on the copy at [r] is in when [init_mock] starts. *)
Definition at_init_mock (E : Env) (r : loc) (w : world) : world :=
  ((update_configs E Sample.hub r ≫= λ _, generate_mock_config E r) w).2.

(** The same world with the chroot of the sample release in place. *)
Definition with_chroot (w : world) : world :=
  set_fs ({["/var/lib/mock/fedora-rawhide-x86_64"]} ∪ w_dirs w) (w_files w) w.

(** The world that run is in when [ostree_init] starts. *)
Definition at_ostree_init (E : Env) (r : loc) (w : world) : world :=
  ((update_configs E Sample.hub r ≫= λ _, generate_mock_config E r
      ≫= λ _, init_mock E r) w).2.

(** The sample run with its repository in place already. *)
Definition with_repository (w : world) : world :=
  set_fs ({["/srv/fedora-atomic/rawhide/x86_64/docker-host"]} ∪ w_dirs w)
         (w_files w) w.

(** The sample run with the parent of the repository and the log
    directory in place, and no repository yet. *)
Definition with_parents (w : world) : world :=
  set_fs ({["/srv/fedora-atomic/rawhide/x86_64"]}
            ∪ {["/srv/fedora-atomic/logs/rawhide/x86_64/docker-host"]} ∪ w_dirs w)
         (w_files w) w.

(** The world the sample run is in when step 5 starts. *)
Definition at_ostree_compose (E : Env) (r : loc) (w : world) : world :=
  (before_compose E Sample.hub r w).2.

(** ** Path functions on sample inputs *)

Example dirname_nested : Path.dirname "/srv/atomic/rawhide" = "/srv/atomic".
Proof. reflexivity. Qed.
Example dirname_trailing : Path.dirname "/srv/atomic/" = "/srv/atomic".
Proof. reflexivity. Qed.
Example dirname_root : Path.dirname "/srv" = "/".
Proof. reflexivity. Qed.
Example dirname_plain : Path.dirname "srv" = "".
Proof. reflexivity. Qed.
Example basename_url :
  Path.basename "https://git.example.org/fedora-atomic.git" = "fedora-atomic.git".
Proof. reflexivity. Qed.
Example basename_trailing : Path.basename "https://git.example.org/atomic/" = "".
Proof. reflexivity. Qed.
Example basename_dotdot : Path.basename "/srv/git/atomic/.." = "..".
Proof. reflexivity. Qed.
Example join_plain : Path.join "/tmp/x" "mock" = "/tmp/x/mock".
Proof. reflexivity. Qed.
Example join_absolute : Path.join "/tmp/x" "/etc" = "/etc".
Proof. reflexivity. Qed.
Example join_dotdot : Path.join "/tmp/x" ".." = "/tmp/x/..".
Proof. reflexivity. Qed.
Example contains_mid : Path.contains "rawhide" "org.compose.rawhide.done" = true.
Proof. reflexivity. Qed.

(** ** Running the monad *)

Lemma bind_ok {A B : Type} (m : M A) (f : A → M B) w a w1 :
  m w = (Ok a, w1) → (m ≫= f) w = f a w1.
Proof. intros H. unfold mbind, M_bind. by rewrite H. Qed.

Lemma bind_raise {A B : Type} (m : M A) (f : A → M B) w e w1 :
  m w = (Raise e, w1) → (m ≫= f) w = (Raise e, w1).
Proof. intros H. unfold mbind, M_bind. by rewrite H. Qed.

Lemma bind_inv_ok {A B : Type} (m : M A) (f : A → M B) w b w2 :
  (m ≫= f) w = (Ok b, w2) → ∃ a w1, m w = (Ok a, w1) ∧ f a w1 = (Ok b, w2).
Proof.
  unfold mbind, M_bind. destruct (m w) as [[a|e] w1]; intros H.
  - by exists a, w1.
  - discriminate.
Qed.

Lemma bind_assoc {A B C : Type} (m : M A) (f : A → M B) (g : B → M C) w :
  ((m ≫= f) ≫= g) w = (m ≫= (λ a, f a ≫= g)) w.
Proof. unfold mbind, M_bind. by destruct (m w) as [[a|e] w1]. Qed.

Lemma getitem_ok r k v w :
  dict_at r w !! k = Some v → getitem r k w = (Ok v, w).
Proof. intros H. unfold getitem. by rewrite H. Qed.

Lemma getitem_state r k w : (getitem r k w).2 = w.
Proof. unfold getitem. by destruct (dict_at r w !! k). Qed.

Lemma isdir_true p w : p ∈ w_dirs w → isdir p w = (Ok true, w).
Proof. intros H. unfold isdir. by rewrite bool_decide_eq_true_2. Qed.

Lemma isdir_false p w : p ∉ w_dirs w → isdir p w = (Ok false, w).
Proof. intros H. unfold isdir. by rewrite bool_decide_eq_false_2. Qed.

(** ** Relations every step preserves *)

Section Keeps.

Context (R : relation world) `{!PreOrder R}.

Lemma keeps_bind {A B : Type} (m : M A) (f : A → M B) :
  keeps R m → (∀ a, keeps R (f a)) → keeps R (m ≫= f).
Proof.
  intros Hm Hf w. unfold mbind, M_bind.
  specialize (Hm w). destruct (m w) as [[a|e] w1]; simpl in *.
  - etrans; [exact Hm | apply Hf].
  - exact Hm.
Qed.

Lemma keeps_ret {A : Type} (a : A) : keeps R (mret a).
Proof. intros w. reflexivity. Qed.

Lemma keeps_raise {A : Type} (e : exn) : keeps R (raise (A := A) e).
Proof. intros w. reflexivity. Qed.

Lemma keeps_eval {A : Type} (f : world → result A) : keeps R (eval f).
Proof. intros w. reflexivity. Qed.

Lemma keeps_when b (m : M unit) : keeps R m → keeps R (when b m).
Proof. intros H. destruct b; [exact H | apply keeps_ret]. Qed.

Lemma keeps_need_str e v : keeps R (need_str e v).
Proof. destruct v; first [apply keeps_ret | apply keeps_raise]. Qed.

Lemma keeps_getitem r k : keeps R (getitem r k).
Proof. intros w. rewrite getitem_state. reflexivity. Qed.

Lemma keeps_isdir p : keeps R (isdir p).
Proof. intros w. reflexivity. Qed.

Lemma keeps_utcnow : keeps R utcnow.
Proof. intros w. reflexivity. Qed.

Lemma keeps_field msg k : keeps R (field msg k).
Proof. unfold field. destruct (fields msg !! k); [apply keeps_ret | apply keeps_raise]. Qed.

End Keeps.

Lemma keeps_mono {A : Type} (R R' : relation world) (m : M A) :
  (∀ w w', R w w' → R' w w') → keeps R m → keeps R' m.
Proof. intros HR Hm w. apply HR, Hm. Qed.

#[export] Instance same_store_preorder : PreOrder same_store.
Proof.
  split.
  - by intros w.
  - intros w1 w2 w3 (H1 & H2 & H3) (H4 & H5 & H6). split_and!; congruence.
Qed.

Lemma store_frame_refl r K w : store_frame r K w w.
Proof. by split_and!. Qed.

Lemma store_frame_trans r K w1 w2 w3 :
  store_frame r K w1 w2 → store_frame r K w2 w3 → store_frame r K w1 w3.
Proof.
  intros (H1 & H2 & H3) (H4 & H5 & H6). split_and!.
  - congruence.
  - intros l Hl. rewrite H5, H2; done.
  - intros k Hk. rewrite H6, H3; done.
Qed.

#[export] Instance writes_preorder r K : PreOrder (writes r K).
Proof.
  split.
  - intros w. split; [apply store_frame_refl | done].
  - intros w1 w2 w3 [H1 H2] [H3 H4].
    split; [by eapply store_frame_trans | congruence].
Qed.

Lemma same_store_writes r K w w' : same_store w w' → writes r K w w'.
Proof.
  intros (Hh & Hr & Ht). split; [| done].
  split_and!; [done | intros; by rewrite Hh |].
  intros k _. unfold dict_at. by rewrite Hh.
Qed.

Lemma keeps_store_log lv args : keeps same_store (log lv args).
Proof. by intros w. Qed.

Lemma keeps_store_mkdir p : keeps same_store (mkdir p).
Proof. intros w. unfold mkdir. by repeat case_match. Qed.

Lemma keeps_store_symlink src dst : keeps same_store (symlink src dst).
Proof. intros w. unfold symlink. by repeat case_match. Qed.

Lemma keeps_store_open_w p : keeps same_store (open_w p).
Proof. intros w. unfold open_w. by repeat case_match. Qed.

Lemma keeps_store_write p t : keeps same_store (write p t).
Proof. by intros w. Qed.

Lemma keeps_store_rmtree p : keeps same_store (rmtree p).
Proof. intros w. unfold rmtree. by repeat case_match. Qed.

Lemma keeps_store_makedirs_rec fuel name : keeps same_store (makedirs_rec fuel name).
Proof.
  revert name. induction fuel as [|fuel IH]; intros name w; [done|].
  simpl. repeat case_match; simplify_eq/=;
    try apply keeps_store_mkdir;
    match goal with
    | H : makedirs_rec fuel ?h w = (_, ?w1) |- _ =>
        pose proof (IH h w) as IHw; rewrite H in IHw; simpl in IHw
    end;
    try exact IHw;
    (etrans; [exact IHw | apply keeps_store_mkdir]).
Qed.

Lemma keeps_store_makedirs name : keeps same_store (makedirs name).
Proof. apply keeps_store_makedirs_rec. Qed.

Lemma keeps_store_mkdtemp names : keeps same_store (mkdtemp_from names).
Proof.
  induction names as [|name rest IH]; intros w; [done|].
  simpl. pose proof (keeps_store_mkdir name w) as Hm.
  destruct (mkdir name w) as [[[]|e] w1]; simpl in *; [done|].
  destruct e as [| | | |[] p| |]; try done.
  etrans; [exact Hm | apply IH].
Qed.

Lemma keeps_writes_setitem r K k v : K k → keeps (writes r K) (setitem r k v).
Proof.
  intros HK w. unfold setitem, writes, store_frame, dict_at. simpl.
  split_and!; [done | | | done].
  - intros l Hl. by rewrite lookup_insert_ne.
  - intros k' Hk'. rewrite lookup_insert_eq. simpl.
    rewrite lookup_insert_ne; [done | congruence].
Qed.

(** Decompose a method along its binds and branches; [tac] closes the
    primitives that are specific to the relation at hand. *)
Ltac keeps_with tac :=
  repeat first
    [ progress tac
    | apply keeps_bind; [apply _ | | intros ?]
    | apply keeps_ret; solve [apply _]
    | apply keeps_raise; solve [apply _]
    | apply keeps_eval; solve [apply _]
    | apply keeps_need_str; solve [apply _]
    | apply keeps_getitem; solve [apply _]
    | apply keeps_isdir; solve [apply _]
    | apply keeps_utcnow; solve [apply _]
    | apply keeps_field; solve [apply _]
    | apply keeps_when; [apply _ |]
    | match goal with
      | |- keeps _ (if ?b then _ else _) => destruct b
      | |- keeps _ (match ?x with _ => _ end) => destruct x
      | |- keeps _ (let _ := _ in _) => cbv zeta
      end ].

Ltac store_prims :=
  first
    [ apply keeps_store_log | apply keeps_store_mkdir
    | apply keeps_store_symlink | apply keeps_store_open_w
    | apply keeps_store_write | apply keeps_store_rmtree
    | apply keeps_store_makedirs | apply keeps_store_mkdtemp ].

Section StoreOfMethods.

Context (E : Env) (self : consumer).

Lemma keeps_store_Popen cmd : keeps same_store (Popen E cmd).
Proof. intros w. unfold Popen. by repeat case_match. Qed.

Lemma keeps_store_call cmd : keeps same_store (call E cmd).
Proof. unfold call. keeps_with ltac:(first [store_prims | apply keeps_store_Popen]). Qed.

Lemma keeps_store_mock_cmd r cmd : keeps same_store (mock_cmd E r cmd).
Proof. unfold mock_cmd. keeps_with ltac:(first [store_prims | apply keeps_store_call]). Qed.

Lemma keeps_store_mock_shell r cmd : keeps same_store (mock_shell E r cmd).
Proof. apply keeps_store_mock_cmd. Qed.

Lemma keeps_store_init_mock r : keeps same_store (init_mock E r).
Proof. unfold init_mock. keeps_with ltac:(first [store_prims | apply keeps_store_mock_cmd]). Qed.

Lemma keeps_store_ostree_init r : keeps same_store (ostree_init E r).
Proof. unfold ostree_init. keeps_with ltac:(first [store_prims | apply keeps_store_mock_shell]). Qed.

Lemma keeps_store_ostree_compose r : keeps same_store (ostree_compose E r).
Proof. unfold ostree_compose. keeps_with ltac:(first [store_prims | apply keeps_store_mock_shell]). Qed.

Lemma keeps_store_update_ostree_summary r :
  keeps same_store (update_ostree_summary E r).
Proof.
  unfold update_ostree_summary.
  keeps_with ltac:(first [store_prims | apply keeps_store_mock_shell]).
Qed.

Lemma keeps_store_cleanup r : keeps same_store (cleanup r).
Proof. unfold cleanup. keeps_with store_prims. Qed.

Ltac writes_prims r :=
  first
    [ apply keeps_writes_setitem; unfold run_keys; tauto
    | apply (keeps_mono same_store); [apply same_store_writes |];
      first [ store_prims | apply keeps_store_call | apply keeps_store_init_mock
            | apply keeps_store_ostree_init | apply keeps_store_ostree_compose
            | apply keeps_store_update_ostree_summary
            | apply keeps_store_cleanup ] ].

Lemma keeps_writes_update_configs r :
  keeps (writes r run_keys) (update_configs E self r).
Proof. unfold update_configs. keeps_with ltac:(writes_prims r). Qed.

Lemma keeps_writes_generate_mock_config r :
  keeps (writes r run_keys) (generate_mock_config E r).
Proof. unfold generate_mock_config. keeps_with ltac:(writes_prims r). Qed.

Lemma keeps_writes_before_cleanup r :
  keeps (writes r run_keys) (before_cleanup E self r).
Proof.
  unfold before_cleanup.
  keeps_with ltac:(first [ apply keeps_writes_update_configs
                         | apply keeps_writes_generate_mock_config
                         | writes_prims r ]).
Qed.

Lemma keeps_writes_compose r : keeps (writes r run_keys) (compose E self r).
Proof.
  unfold compose.
  keeps_with ltac:(first [ apply keeps_writes_update_configs
                         | apply keeps_writes_generate_mock_config
                         | writes_prims r ]).
Qed.

Lemma compose_split r w :
  compose E self r w = (before_cleanup E self r ≫= λ _, cleanup r) w.
Proof.
  unfold compose, before_cleanup. unfold mbind, M_bind.
  repeat match goal with
         | |- context [match ?m w with _ => _ end] => destruct (m w) as [[?|?] ?]
         | |- context [match ?m ?w' with _ => _ end] =>
             is_var w'; destruct (m w') as [[?|?] ?]
         end; reflexivity.
Qed.

End StoreOfMethods.

(** ** What a command leaves behind *)

(** Run the first action of a bind: a dict lookup known to succeed, or an
    action that computes. *)
Ltac step_get H :=
  match goal with
  | |- context [(getitem ?r ?k ≫= ?f) ?w] =>
      rewrite (bind_ok (getitem r k) f w _ w (getitem_ok r k _ w H))
  end.
Ltac step_pure := erewrite bind_ok; [| reflexivity].

Section Commands.

Context (E : Env) (self : consumer).

Lemma argv_of_strs (argv : list string) : argv_of (VStr <$> argv) = Some argv.
Proof.
  induction argv as [|a l IH]; [done|].
  change (argv_of (VStr <$> a :: l)) with (cons a <$> argv_of (VStr <$> l)).
  by rewrite IH.
Qed.

Lemma call_started argv p w :
  argv ≠ [] →
  popen E argv (w_dirs w) (w_files w) = Some p →
  call E (VStr <$> argv) w
  = (Ok (p_out p, p_err p, p_returncode p), after_call argv p w).
Proof.
  intros Hne Hp.
  unfold call, after_call, mbind, M_bind, Popen, log, when.
  rewrite argv_of_strs. destruct argv as [|a l]; [done|].
  simpl w_dirs. simpl w_files. rewrite Hp.
  destruct (negb (String.eqb (p_err p) "")), (negb (p_returncode p =? 0));
    reflexivity.
Qed.

Lemma call_calls argv w :
  argv ≠ [] → w_calls (call E (VStr <$> argv) w).2 = (w_calls w ++ [argv])%list.
Proof.
  intros Hne.
  destruct (popen E argv (w_dirs w) (w_files w)) as [p|] eqn:Hp.
  - rewrite (call_started _ _ _ Hne Hp). unfold after_call.
    by destruct (negb (String.eqb (p_err p) "")), (negb (p_returncode p =? 0)).
  - unfold call, mbind, M_bind, Popen, log.
    rewrite argv_of_strs. destruct argv as [|a l]; [done|].
    simpl w_dirs. simpl w_files. by rewrite Hp.
Qed.

Lemma after_call_store argv p w : same_store w (after_call argv p w).
Proof.
  unfold after_call.
  by destruct (negb (String.eqb (p_err p) "")), (negb (p_returncode p =? 0)).
Qed.

Lemma after_call_clock argv p w :
  w_clock (after_call argv p w) = w_clock w + p_elapsed p.
Proof.
  unfold after_call.
  by destruct (negb (String.eqb (p_err p) "")), (negb (p_returncode p =? 0)).
Qed.

Lemma after_call_error_logged argv p w :
  p_returncode p ≠ 0 →
  (ERROR, [LStr ("returncode = " +:+ pretty (p_returncode p))])
    ∈ w_log (after_call argv p w).
Proof.
  intros Hc. unfold after_call.
  apply Z.eqb_neq in Hc. rewrite Hc. simpl negb. cbv iota.
  simpl. apply elem_of_app. right. by apply list_elem_of_singleton.
Qed.

Lemma mock_cmd_started r cmd args m md p w :
  dict_at r w !! "mock" = Some (VStr m) →
  dict_at r w !! "mock_dir" = Some (VStr md) →
  mock_args cmd = VStr <$> args →
  popen E (mock_argv m md args) (w_dirs w) (w_files w) = Some p →
  mock_cmd E r cmd w
  = (Ok tt, add_log (DEBUG, [LStr (p_out p)])
              (after_call (mock_argv m md args) p w)).
Proof.
  intros Hm Hmd Hargs Hp. unfold mock_cmd. fold (mock_args cmd).
  step_get Hm. step_get Hmd.
  step_pure.
  rewrite Hargs.
  change ([VStr "/usr/bin/mock"; VStr "-r"; VStr m; VStr ("--configdir=" +:+ md)]
            ++ (VStr <$> args))%list with (VStr <$> mock_argv m md args).
  erewrite bind_ok; [| by apply call_started]. reflexivity.
Qed.

Lemma mock_cmd_calls r cmd args m md w :
  dict_at r w !! "mock" = Some (VStr m) →
  dict_at r w !! "mock_dir" = Some (VStr md) →
  mock_args cmd = VStr <$> args →
  w_calls (mock_cmd E r cmd w).2 = (w_calls w ++ [mock_argv m md args])%list.
Proof.
  intros Hm Hmd Hargs. unfold mock_cmd. fold (mock_args cmd).
  step_get Hm. step_get Hmd.
  step_pure.
  rewrite Hargs.
  change ([VStr "/usr/bin/mock"; VStr "-r"; VStr m; VStr ("--configdir=" +:+ md)]
            ++ (VStr <$> args))%list with (VStr <$> mock_argv m md args).
  pose proof (call_calls (mock_argv m md args) w) as Hc.
  unfold mbind, M_bind.
  destruct (call E (VStr <$> mock_argv m md args) w) as [[res|e] w1];
    simpl in *; by apply Hc.
Qed.

End Commands.

(** ** Directories only appear, commands are not run *)

#[export] Instance grows_preorder : PreOrder grows.
Proof.
  split.
  - by intros w.
  - intros w1 w2 w3 (H1 & H2 & H3 & H4) (H5 & H6 & H7 & H8).
    split_and!; [set_solver | congruence..].
Qed.

Lemma keeps_grows_log lv args : keeps grows (log lv args).
Proof. by intros w. Qed.

Lemma keeps_grows_mkdir p : keeps grows (mkdir p).
Proof.
  intros w. unfold mkdir. repeat case_match; try done.
  simpl. split_and!; [set_solver | done..].
Qed.

Lemma keeps_grows_makedirs_rec fuel name : keeps grows (makedirs_rec fuel name).
Proof.
  revert name. induction fuel as [|fuel IH]; intros name w; [done|].
  simpl. repeat case_match; simplify_eq/=;
    try apply keeps_grows_mkdir;
    match goal with
    | H : makedirs_rec fuel ?h w = (_, ?w1) |- _ =>
        pose proof (IH h w) as IHw; rewrite H in IHw; simpl in IHw
    end;
    try exact IHw;
    (etrans; [exact IHw | apply keeps_grows_mkdir]).
Qed.

Lemma keeps_grows_makedirs name : keeps grows (makedirs name).
Proof. apply keeps_grows_makedirs_rec. Qed.

#[export] Instance inv_preorder I : PreOrder (inv I).
Proof. split; unfold inv; [by intros w | intros w1 w2 w3; tauto]. Qed.

Lemma keeps_inv_getitem_bind {B : Type} I r k v (f : pyval → M B) :
  (∀ w, I w → dict_at r w !! k = Some v) →
  keeps (inv I) (f v) → keeps (inv I) (getitem r k ≫= f).
Proof.
  intros Hk Hf w HI. rewrite (bind_ok _ _ _ _ _ (getitem_ok _ _ _ _ (Hk w HI))).
  by apply Hf.
Qed.

Lemma keeps_inv_isdir_bind {B : Type} I p (f : bool → M B) :
  (∀ w, I w → p ∈ w_dirs w) →
  keeps (inv I) (f true) → keeps (inv I) (isdir p ≫= f).
Proof.
  intros Hp Hf w HI. rewrite (bind_ok _ _ _ _ _ (isdir_true _ _ (Hp w HI))).
  by apply Hf.
Qed.

Lemma keeps_pure_bind {A B : Type} R (a : A) (f : A → M B) :
  keeps R (f a) → keeps R (mret a ≫= f).
Proof. intros Hf w. apply Hf. Qed.

#[export] Instance same_calls_preorder : PreOrder same_calls.
Proof. split; unfold same_calls; [by intros w | intros w1 w2 w3; congruence]. Qed.

Lemma keeps_calls_rmtree p : keeps same_calls (rmtree p).
Proof. intros w. unfold rmtree. by repeat case_match. Qed.

Lemma keeps_calls_cleanup r : keeps same_calls (cleanup r).
Proof. unfold cleanup. keeps_with ltac:(apply keeps_calls_rmtree). Qed.

Lemma keeps_calls_log lv args : keeps same_calls (log lv args).
Proof. by intros w. Qed.

(** ** The commands each step hands to [Popen] *)

Section Steps.

Context (E : Env) (self : consumer).

Lemma bind_log_calls {A : Type} (m : M A) lv args w :
  w_calls ((m ≫= λ _, log lv args) w).2 = w_calls (m w).2.
Proof. unfold mbind, M_bind. by destruct (m w) as [[a|e] w1]. Qed.

Lemma mock_shell_calls r cmd m md w :
  dict_at r w !! "mock" = Some (VStr m) →
  dict_at r w !! "mock_dir" = Some (VStr md) →
  w_calls (mock_shell E r cmd w).2
  = (w_calls w ++ [mock_argv m md ["--shell"; cmd]])%list.
Proof. intros Hm Hmd. unfold mock_shell. by apply mock_cmd_calls. Qed.

Lemma init_mock_calls r m md w :
  dict_at r w !! "mock" = Some (VStr m) →
  dict_at r w !! "mock_dir" = Some (VStr md) →
  w_calls (init_mock E r w).2
  = (w_calls w ++
      [mock_argv m md
         [if bool_decide ("/var/lib/mock/" +:+ m ∈ w_dirs w)
          then "--update" else "--init"]])%list.
Proof.
  intros Hm Hmd. unfold init_mock. step_get Hm. step_pure.
  change (to_text E (VStr m)) with m.
  destruct (bool_decide ("/var/lib/mock/" +:+ m ∈ w_dirs w));
    cbv beta iota delta [negb];
    rewrite bind_log_calls; by apply mock_cmd_calls.
Qed.

Lemma ostree_init_present r od tree w :
  dict_at r w !! "output_dir" = Some (VStr od) →
  dict_at r w !! "tree" = Some (VStr tree) →
  Path.join (Path.dirname od) tree ∈ w_dirs w →
  w_calls (ostree_init E r w).2 = w_calls w.
Proof.
  intros Hod Htree Hout.
  set (I := λ w', Path.join (Path.dirname od) tree ∈ w_dirs w'
                  ∧ w_calls w' = w_calls w ∧ w_heap w' = w_heap w).
  assert (Hgrow : ∀ {A} (m : M A), keeps grows m → keeps (inv I) m).
  { intros A m. apply keeps_mono. intros w1 w2 (H1 & H2 & H3 & _) (H4 & H5 & H6).
    unfold I. split_and!; [set_solver | congruence..]. }
  assert (Hdict : ∀ w', I w' → dict_at r w' = dict_at r w).
  { intros w' (_ & _ & Hh). unfold dict_at. by rewrite Hh. }
  assert (HK : keeps (inv I) (ostree_init E r)).
  { unfold ostree_init.
    apply keeps_inv_getitem_bind with (v := VStr od).
    { intros w' HI. by rewrite (Hdict w' HI). }
    apply keeps_pure_bind.
    apply keeps_bind; [apply _ | apply keeps_isdir; apply _ | intros b1].
    apply keeps_bind; [apply _ | | intros _].
    { apply Hgrow.
      keeps_with ltac:(first [apply keeps_grows_log | apply keeps_grows_makedirs]). }
    apply keeps_bind; [apply _ | apply keeps_getitem; apply _ | intros v1].
    apply keeps_bind; [apply _ | apply keeps_need_str; apply _ | intros s1].
    apply keeps_bind; [apply _ | apply keeps_isdir; apply _ | intros b2].
    apply keeps_bind; [apply _ | | intros _].
    { apply Hgrow.
      keeps_with ltac:(first [apply keeps_grows_log | apply keeps_grows_makedirs]). }
    apply keeps_inv_getitem_bind with (v := VStr tree).
    { intros w' HI. by rewrite (Hdict w' HI). }
    apply keeps_pure_bind.
    apply keeps_inv_isdir_bind; [by intros w' (? & _) |].
    apply keeps_ret; apply _. }
  destruct (HK w) as (_ & Hc & _); [by unfold I | exact Hc].
Qed.

Lemma ostree_init_absent r od ld tree m md w :
  dict_at r w !! "output_dir" = Some (VStr od) →
  dict_at r w !! "log_dir" = Some (VStr ld) →
  dict_at r w !! "tree" = Some (VStr tree) →
  dict_at r w !! "mock" = Some (VStr m) →
  dict_at r w !! "mock_dir" = Some (VStr md) →
  Path.dirname od ∈ w_dirs w →
  ld ∈ w_dirs w →
  Path.join (Path.dirname od) tree ∉ w_dirs w →
  w_calls (ostree_init E r w).2
  = (w_calls w ++
      [mock_argv m md
         ["--shell";
          init_cmd (Path.join (Path.dirname od) tree)
                   (Path.join ld "ostree.log")]])%list.
Proof.
  intros Hod Hld Htree Hm Hmd Hbase Hlog Hout. unfold ostree_init.
  step_get Hod. step_pure.
  rewrite (bind_ok _ _ _ _ _ (isdir_true _ _ Hbase)). step_pure.
  step_get Hld. step_pure.
  rewrite (bind_ok _ _ _ _ _ (isdir_true _ _ Hlog)). step_pure.
  step_get Htree. step_pure.
  rewrite (bind_ok _ _ _ _ _ (isdir_false _ _ Hout)).
  cbv beta iota delta [negb when]. step_get Hld. step_pure.
  by apply mock_shell_calls.
Qed.

Lemma update_ostree_summary_calls r name od m md w :
  dict_at r w !! "name" = Some name →
  dict_at r w !! "output_dir" = Some od →
  dict_at r w !! "mock" = Some (VStr m) →
  dict_at r w !! "mock_dir" = Some (VStr md) →
  w_calls (update_ostree_summary E r w).2
  = (w_calls w ++ [mock_argv m md ["--shell"; summary_cmd (to_text E od)]])%list.
Proof.
  intros Hname Hod Hm Hmd. unfold update_ostree_summary.
  step_get Hname. step_pure.
  step_get Hod.
  pose proof (mock_shell_calls r (summary_cmd (to_text E od)) m md
                (add_log (INFO, [LStr "Updating the ostree summary for %s"; LVal name]) w)
                Hm Hmd) as Hc.
  pose proof (keeps_store_mock_shell E r (summary_cmd (to_text E od))
                (add_log (INFO, [LStr "Updating the ostree summary for %s"; LVal name]) w))
    as [Hh _].
  fold (summary_cmd (to_text E od)).
  unfold mbind at 1, M_bind at 1.
  destruct (mock_shell E r (summary_cmd (to_text E od)) _) as [[[]|e] w1];
    simpl in *; [| exact Hc].
  assert (Hod1 : dict_at r w1 !! "output_dir" = Some od).
  { unfold dict_at in *. by rewrite Hh. }
  step_get Hod1.
  destruct od; simpl; exact Hc.
Qed.

End Steps.

Section MoreSteps.

Context (E : Env) (self : consumer).

Lemma dict_at_setitem r k v w :
  dict_at r (setitem r k v w).2 = <[k := v]> (dict_at r w).
Proof. unfold dict_at at 1. simpl. by rewrite lookup_insert_eq. Qed.

Lemma endswith_slash_app (a b : string) :
  b ≠ "" → Path.endswith_slash (a +:+ b) = Path.endswith_slash b.
Proof.
  intros Hb. induction a as [|x a IH]; [done|].
  change (String x a +:+ b) with (String x (a +:+ b)).
  destruct (a +:+ b) as [|y s] eqn:Hab.
  - destruct a; [by subst | discriminate].
  - exact IH.
Qed.

Lemma endswith_slash_join (a b : string) :
  b ≠ "" → Path.endswith_slash (Path.join a b) = Path.endswith_slash b.
Proof.
  intros Hb. unfold Path.join. repeat case_match; [done | by apply endswith_slash_app |].
  rewrite endswith_slash_app by done. by apply endswith_slash_app.
Qed.

Lemma open_w_ok path w :
  path ∉ w_dirs w → parent_ok path w = true →
  Path.endswith_slash path = false →
  open_w path w
  = (Ok tt, set_fs (w_dirs w) (<[path := Regular ""]> (w_files w)) w).
Proof.
  intros Hd Hp Hs. unfold open_w. rewrite bool_decide_eq_false_2 by done.
  by rewrite Hp, Hs.
Qed.

Lemma treefile_is_a_file_name gd :
  Path.endswith_slash (Path.join gd "treefile.json") = false.
Proof. by rewrite endswith_slash_join. Qed.

Lemma update_configs_started r t b p w :
  dict_at r w !! "tmp_dir" = Some (VStr t) →
  dict_at r w !! "git_branch" = Some (VStr b) →
  let git_dir := Path.join t (Path.basename (git_repo self)) in
  popen E (clone_argv self b git_dir) (w_dirs w) (w_files w) = Some p →
  update_configs E self r w
  = (Ok tt, after_call (clone_argv self b git_dir) p
              (setitem r "git_dir" (VStr git_dir) w).2).
Proof.
  intros Ht Hb git_dir Hp. unfold update_configs.
  step_get Ht. step_pure. fold git_dir. step_pure.
  assert (Hb' : dict_at r (setitem r "git_dir" (VStr git_dir) w).2 !! "git_branch"
                = Some (VStr b)).
  { rewrite dict_at_setitem. by rewrite lookup_insert_ne. }
  step_get Hb'.
  change [VStr "git"; VStr "clone"; VStr "-b"; VStr b; VStr (git_repo self);
          VStr git_dir] with (VStr <$> clone_argv self b git_dir).
  erewrite bind_ok; [reflexivity |].
  by apply call_started.
Qed.

Lemma ostree_compose_started r ld gd tf text od m md p w :
  dict_at r w !! "log_dir" = Some (VStr ld) →
  dict_at r w !! "git_dir" = Some (VStr gd) →
  dict_at r w !! "treefile" = Some tf →
  dict_at r w !! "output_dir" = Some od →
  dict_at r w !! "mock" = Some (VStr m) →
  dict_at r w !! "mock_dir" = Some (VStr md) →
  let treefile := Path.join gd "treefile.json" in
  let argv := mock_argv m md
                ["--shell";
                 compose_cmd (to_text E od) treefile
                             (Path.join ld "rpm-ostree.log")] in
  treefile ∉ w_dirs w → parent_ok treefile w = true →
  json_dumps E tf = Ok text →
  popen E argv (w_dirs w) (<[treefile := Regular text]> (w_files w)) = Some p →
  ostree_compose E r w
  = (Ok tt,
     add_log (INFO, [LStr "rpm-ostree compose complete (%s)"; LDelta (p_elapsed p)])
       (add_log (DEBUG, [LStr (p_out p)])
          (after_call argv p (manifest_written treefile text w)))).
Proof.
  intros Hld Hgd Htf Hod Hm Hmd treefile argv Hnd Hpar Hjson Hp.
  unfold ostree_compose.
  step_get Hld. step_pure. step_pure. step_get Hgd. step_pure. fold treefile.
  rewrite (bind_ok _ _ _ _ _ (open_w_ok _ _ Hnd Hpar (treefile_is_a_file_name gd))).
  step_get Htf.
  erewrite bind_ok; [| unfold eval; rewrite Hjson; reflexivity].
  step_pure. step_get Hod.
  match goal with
  | |- (_ ≫= _) ?w0 = _ =>
      replace w0 with (manifest_written treefile text w)
        by (unfold manifest_written, set_fs; simpl; by rewrite insert_insert_eq)
  end.
  erewrite bind_ok;
    [| unfold mock_shell; eapply (mock_cmd_started E) with (args := ["--shell"; _]);
       [exact Hm | exact Hmd | reflexivity | exact Hp]].
  step_pure. unfold log.
  assert (Hclk : w_clock (add_log (DEBUG, [LStr (p_out p)])
                   (after_call argv p (manifest_written treefile text w)))
                 - w_clock w = p_elapsed p).
  { change (w_clock (add_log ?x ?y)) with (w_clock y).
    rewrite after_call_clock. simpl. lia. }
  do 6 f_equal. exact Hclk.
Qed.

Lemma rmtree_removes t w w' : rmtree t w = (Ok tt, w') → t ∉ w_dirs w'.
Proof.
  unfold rmtree. intros Hrm. repeat case_match; simplify_eq/=.
  rewrite elem_of_filter. intros [Hb _]. unfold Path.below in Hb.
  by rewrite String.eqb_refl in Hb.
Qed.

Lemma cleanup_removes r t w w' :
  dict_at r w !! "tmp_dir" = Some (VStr t) →
  cleanup r w = (Ok tt, w') → t ∉ w_dirs w'.
Proof.
  intros Ht. unfold cleanup. step_get Ht. step_pure. apply rmtree_removes.
Qed.

End MoreSteps.

(** ** What [consume] does to the store *)

Section Dispatch.

Context (E : Env) (self : consumer).

Lemma handed_bind {A B : Type} r (m : M A) (f : A → M B) :
  keeps (writes r copy_keys) m → (∀ a, keeps (handed r) (f a)) →
  keeps (handed r) (m ≫= f).
Proof.
  intros Hm Hf w. unfold mbind, M_bind.
  destruct (Hm w) as [Hs Ht]. destruct (m w) as [[a|e] w1]; simpl in *.
  - destruct (Hf a w1) as [Hs' Ht']. split; [by eapply store_frame_trans |].
    rewrite <- Ht. exact Ht'.
  - split; [done | by left].
Qed.

Lemma keeps_writes_expand r key template :
  copy_keys key → keeps (writes r copy_keys) (expand E r key template).
Proof.
  intros HK. unfold expand.
  keeps_with ltac:(by apply keeps_writes_setitem).
Qed.

(** After the copy was made at [r]. *)
Lemma schedule_tail_handed r :
  keeps (handed r)
    (tmp_dir ← mkdtemp_from (tmp_candidates E) ;
     setitem r "tmp_dir" (VStr tmp_dir) ;;
     expand E r "output_dir" (output_dir self) ;;
     expand E r "log_dir" (log_dir self) ;;
     callInThread r).
Proof.
  apply handed_bind.
  { apply (keeps_mono same_store); [apply same_store_writes |].
    apply keeps_store_mkdtemp. }
  intros tmp. apply handed_bind.
  { apply keeps_writes_setitem. unfold copy_keys. tauto. }
  intros _. apply handed_bind.
  { apply keeps_writes_expand. unfold copy_keys. tauto. }
  intros _. apply handed_bind.
  { apply keeps_writes_expand. unfold copy_keys. tauto. }
  intros _ w. split; [by split_and! | by right].
Qed.

Lemma schedule_dispatched repo w : dispatched repo w (schedule E self repo w).2.
Proof.
  unfold schedule, deepcopy_release.
  unfold mbind at 1, M_bind at 1.
  destruct (w_releases w !! repo) as [src|] eqn:Hsrc.
  2: { split_and!; [done | done | by left]. }
  set (r := fresh (dom (w_heap w))).
  set (w1 := set_heap (<[r := dict_at src w]> (w_heap w)) w).
  assert (Hfresh : r ∉ dom (w_heap w)) by apply is_fresh.
  destruct (schedule_tail_handed r w1) as [(Hrel & Hoth & Hkeys) Hthr].
  split_and!.
  - exact Hrel.
  - intros l Hl. rewrite Hoth by set_solver.
    subst w1. simpl. rewrite lookup_insert_ne; [done | set_solver].
  - destruct Hthr as [Hthr | Hthr]; [by left | right].
    exists r, src. split_and!; [done | done | exact Hthr |].
    intros k Hk. rewrite (Hkeys k Hk). subst w1. unfold dict_at at 1. simpl.
    by rewrite lookup_insert_eq.
Qed.

Lemma dispatched_after repo (w w1 w2 : world) :
  same_store w w1 → dispatched repo w1 w2 → dispatched repo w w2.
Proof.
  intros (Hh & Hr & Ht) (H1 & H2 & H3). unfold dispatched, dict_at in *.
  rewrite Hh, Hr, Ht in *. done.
Qed.

Lemma dispatched_none repo w w1 : same_store w w1 → dispatched repo w w1.
Proof.
  intros (Hh & Hr & Ht). split_and!; [done | | by left].
  intros l _. by rewrite Hh.
Qed.

Lemma dispatched_bind {A B : Type} repo (m : M A) (f : A → M B) :
  keeps same_store m → (∀ a, keeps (dispatched repo) (f a)) →
  keeps (dispatched repo) (m ≫= f).
Proof.
  intros Hm Hf w. unfold mbind, M_bind.
  specialize (Hm w). destruct (m w) as [[a|e] w1]; simpl in *.
  - eapply dispatched_after; [exact Hm | apply Hf].
  - by apply dispatched_none.
Qed.

Lemma keeps_store_field msg k : keeps same_store (field msg k).
Proof. apply keeps_field. apply _. Qed.

Lemma dispatched_field_some {B : Type} repo msg k v (f : string → M B) :
  fields msg !! k = Some v →
  keeps (dispatched repo) (f v) → keeps (dispatched repo) (field msg k ≫= f).
Proof. intros Hk Hf w. unfold field. rewrite Hk. apply Hf. Qed.

Lemma dispatched_field_none {B : Type} repo msg k (f : string → M B) :
  fields msg !! k = None → keeps (dispatched repo) (field msg k ≫= f).
Proof.
  intros Hk w. unfold field. rewrite Hk. apply dispatched_none. by split_and!.
Qed.

Lemma consume_dispatched msg w :
  dispatched (classify msg) w (consume E self msg w).2.
Proof.
  revert w. change (keeps (dispatched (classify msg)) (consume E self msg)).
  unfold consume, classify.
  apply dispatched_bind; [apply keeps_store_log | intros _].
  destruct (Path.contains "rawhide" (topic msg)).
  { apply dispatched_bind; [apply keeps_store_field | intros arch].
    apply dispatched_bind; [apply keeps_store_log | intros _].
    intros w. apply schedule_dispatched. }
  destruct (Path.contains "branched" (topic msg)).
  { apply dispatched_bind; [apply keeps_store_field | intros arch].
    destruct (fields msg !! "branch") as [branch|] eqn:Hbranch;
      [| by apply dispatched_field_none].
    apply (dispatched_field_some _ _ _ _ _ Hbranch).
    apply dispatched_bind; [apply keeps_store_log | intros _].
    apply dispatched_bind; [apply keeps_store_field | intros lg].
    destruct (negb (String.eqb lg "done")).
    - intros w. apply dispatched_none. by split_and!.
    - intros w. apply schedule_dispatched. }
  destruct (Path.contains "updates.fedora" (topic msg)).
  { apply dispatched_bind; [apply keeps_store_log | intros _].
    destruct (fields msg !! "release") as [rel|] eqn:Hrel;
      [| by apply dispatched_field_none].
    apply (dispatched_field_some _ _ _ _ _ Hrel).
    destruct (fields msg !! "repo") as [rep|] eqn:Hrep;
      [| by apply dispatched_field_none].
    apply (dispatched_field_some _ _ _ _ _ Hrep).
    intros w. apply schedule_dispatched. }
  apply dispatched_bind; [apply keeps_store_log | intros _].
  intros w. apply schedule_dispatched.
Qed.

End Dispatch.

Section ComposeCalls.

Context (E : Env) (self : consumer).

Lemma bind_quiet_calls {A B : Type} (m : M A) (f : A → M B) w :
  (∀ a, keeps same_calls (f a)) →
  w_calls ((m ≫= f) w).2 = w_calls (m w).2.
Proof.
  intros Hf. unfold mbind, M_bind.
  destruct (m w) as [[a|e] w1]; [apply Hf | done].
Qed.

Lemma ostree_compose_calls r ld gd tf text od m md w :
  dict_at r w !! "log_dir" = Some (VStr ld) →
  dict_at r w !! "git_dir" = Some (VStr gd) →
  dict_at r w !! "treefile" = Some tf →
  dict_at r w !! "output_dir" = Some od →
  dict_at r w !! "mock" = Some (VStr m) →
  dict_at r w !! "mock_dir" = Some (VStr md) →
  let treefile := Path.join gd "treefile.json" in
  treefile ∉ w_dirs w → parent_ok treefile w = true →
  json_dumps E tf = Ok text →
  w_calls (ostree_compose E r w).2
  = (w_calls w ++
      [mock_argv m md
         ["--shell";
          compose_cmd (to_text E od) treefile
                      (Path.join ld "rpm-ostree.log")]])%list.
Proof.
  intros Hld Hgd Htf Hod Hm Hmd treefile Hnd Hpar Hjson.
  unfold ostree_compose.
  step_get Hld. step_pure. step_pure. step_get Hgd. step_pure. fold treefile.
  rewrite (bind_ok _ _ _ _ _ (open_w_ok _ _ Hnd Hpar (treefile_is_a_file_name gd))).
  step_get Htf.
  erewrite bind_ok; [| unfold eval; rewrite Hjson; reflexivity].
  step_pure. step_get Hod.
  rewrite bind_quiet_calls.
  - by rewrite (mock_shell_calls E r _ m md).
  - intros _. keeps_with ltac:(apply keeps_calls_log).
Qed.

Lemma compose_from_step5 r w w4 :
  before_compose E self r w = (Ok tt, w4) →
  compose E self r w
  = (ostree_compose E r ≫= λ _, update_ostree_summary E r ≫= λ _, cleanup r) w4.
Proof.
  unfold before_compose, compose. unfold mbind, M_bind. intros H.
  destruct (update_configs E self r w) as [[[]|?] w1]; [| done].
  destruct (generate_mock_config E r w1) as [[[]|?] w2]; [| done].
  destruct (init_mock E r w2) as [[[]|?] w3]; [| done].
  by rewrite H.
Qed.

Lemma run_eq {A : Type} (x : result A * world) a : x.1 = a → x = (a, x.2).
Proof. destruct x as [y w]. simpl. by intros ->. Qed.

End ComposeCalls.

(** ** [os.makedirs] never runs out of fuel *)

Lemma app_cons c (a b : string) : String c a +:+ b = String c (a +:+ b).
Proof. reflexivity. Qed.

Lemma cut_app p : (Path.cut p).1 +:+ (Path.cut p).2 = p.
Proof.
  induction p as [|c rest IH]; [done|].
  simpl. destruct (Path.cut rest) as [h t]. simpl in *.
  destruct h as [|c' h'].
  - change (t = rest) in IH. subst t. by destruct (Path.is_slash c).
  - simpl. rewrite app_cons. by rewrite IH.
Qed.

Lemma length_app_string (a b : string) :
  String.length (a +:+ b) = (String.length a + String.length b)%nat.
Proof.
  induction a as [|c a IH]; [done|]. rewrite app_cons. simpl. by rewrite IH.
Qed.

Lemma rstrip_slash_length s :
  (String.length (Path.rstrip_slash s) ≤ String.length s)%nat.
Proof.
  induction s as [|c rest IH]; [done|].
  simpl. destruct (Path.rstrip_slash rest) as [|c' r'].
  - destruct (Path.is_slash c); simpl; lia.
  - simpl in *. lia.
Qed.

Lemma dirname_length p :
  (String.length (Path.dirname p) + String.length (Path.basename p)
   ≤ String.length p)%nat.
Proof.
  unfold Path.dirname, Path.basename.
  pose proof (cut_app p) as Hp. apply (f_equal String.length) in Hp.
  rewrite length_app_string in Hp.
  pose proof (rstrip_slash_length (Path.cut p).1).
  case_match; lia.
Qed.

Lemma basename_nonempty_length t :
  String.eqb t "" = false → (1 ≤ String.length t)%nat.
Proof. destruct t; [done | simpl; lia]. Qed.

Lemma mkdir_no_RuntimeError p w : (mkdir p w).1 ≠ Raise RuntimeError.
Proof. unfold mkdir. by repeat case_match. Qed.

Lemma makedirs_rec_fuel fuel name w :
  (String.length name < fuel)%nat →
  (makedirs_rec fuel name w).1 ≠ Raise RuntimeError.
Proof.
  revert name w. induction fuel as [|fuel IH]; intros name w Hlen; [lia|].
  simpl.
  pose proof (dirname_length name) as Hname.
  pose proof (dirname_length (Path.dirname name)) as Hhead.
  destruct (String.eqb (Path.basename name) "") eqn:Htail.
  - destruct (negb (String.eqb (Path.dirname (Path.dirname name)) "")
              && negb (String.eqb (Path.basename (Path.dirname name)) "")
              && negb (exists_b (Path.dirname (Path.dirname name)) w)) eqn:Hgo;
      [| apply mkdir_no_RuntimeError].
    apply andb_prop in Hgo as [Hgo _]. apply andb_prop in Hgo as [_ Hgo].
    apply negb_true_iff, basename_nonempty_length in Hgo.
    specialize (IH (Path.dirname (Path.dirname name)) w ltac:(lia)).
    destruct (makedirs_rec fuel (Path.dirname (Path.dirname name)) w)
      as [[[]|e] w1]; simpl in *.
    + case_match; [done | apply mkdir_no_RuntimeError].
    + destruct e as [| | | |[] ?| |]; try done;
        case_match; solve [done | apply mkdir_no_RuntimeError].
  - destruct (negb (String.eqb (Path.dirname name) "")
              && negb (String.eqb (Path.basename name) "")
              && negb (exists_b (Path.dirname name) w)) eqn:Hgo;
      [| apply mkdir_no_RuntimeError].
    apply basename_nonempty_length in Htail.
    specialize (IH (Path.dirname name) w ltac:(lia)).
    destruct (makedirs_rec fuel (Path.dirname name) w) as [[[]|e] w1]; simpl in *.
    + case_match; [done | apply mkdir_no_RuntimeError].
    + destruct e as [| | | |[] ?| |]; try done;
        case_match; solve [done | apply mkdir_no_RuntimeError].
Qed.

Lemma makedirs_total name w : (makedirs name w).1 ≠ Raise RuntimeError.
Proof. apply makedirs_rec_fuel. lia. Qed.

(** ** Path components *)

Lemma prefix_app (a b : string) : String.prefix a (a +:+ b) = true.
Proof.
  induction a as [|c a IH]; [by destruct b|].
  rewrite app_cons. simpl. destruct (ascii_dec c c); [exact IH | done].
Qed.

Lemma string_app_assoc (a b c : string) : (a +:+ b) +:+ c = a +:+ (b +:+ c).
Proof. induction a as [|x a IH]; [done|]. rewrite !app_cons. by rewrite IH. Qed.

Lemma cut_snd_noslash p : noslash (Path.cut p).2 = true.
Proof.
  induction p as [|c rest IH]; [done|].
  simpl. pose proof (cut_app rest) as Happ.
  destruct (Path.cut rest) as [h t]. simpl in *.
  destruct h as [|c' h'].
  - change (t = rest) in Happ. subst t.
    destruct (Path.is_slash c) eqn:Hc; simpl; [done | by rewrite Hc].
  - done.
Qed.

Lemma noslash_startswith s : noslash s = true → Path.startswith "/" s = false.
Proof.
  destruct s as [|c s]; [done|]. intros H.
  change (negb (Path.is_slash c) && noslash s = true) in H.
  apply andb_prop in H as [Hc _].
  unfold Path.startswith.
  change (String.prefix "/" (String c s))
    with (if ascii_dec "/"%char c then String.prefix "" s else false).
  destruct (ascii_dec "/"%char c) as [<-|]; [by vm_compute in Hc | done].
Qed.

Lemma basename_not_absolute p : Path.startswith "/" (Path.basename p) = false.
Proof. apply noslash_startswith, cut_snd_noslash. Qed.

Lemma join_below t b :
  t ≠ "" → Path.startswith "/" b = false → Path.below t (Path.join t b) = true.
Proof.
  intros Ht Hb. unfold Path.join, Path.below. rewrite Hb.
  assert (Hne : String.eqb t "" = false) by by apply String.eqb_neq.
  rewrite Hne. simpl. destruct (Path.endswith_slash t).
  - rewrite prefix_app. apply orb_true_r.
  - rewrite <- string_app_assoc. rewrite prefix_app. apply orb_true_r.
Qed.

Lemma cut_noslash t : noslash t = true → Path.cut t = ("", t).
Proof.
  induction t as [|c rest IH]; [done|]. intros H.
  change (negb (Path.is_slash c) && noslash rest = true) in H.
  apply andb_prop in H as [Hc Hrest]. simpl. rewrite (IH Hrest).
  apply negb_true_iff in Hc. by rewrite Hc.
Qed.

Lemma cut_component b t :
  noslash t = true → Path.cut (b +:+ "/" +:+ t) = (b +:+ "/", t).
Proof.
  intros Ht. induction b as [|c b IH].
  - change ("" +:+ "/" +:+ t) with (String "/" t). simpl.
    by rewrite (cut_noslash t Ht).
  - change (String c b +:+ "/" +:+ t) with (String c (b +:+ "/" +:+ t)).
    change (String c b +:+ "/") with (String c (b +:+ "/")).
    simpl. rewrite IH. by destruct b.
Qed.

Lemma rstrip_slash_id b :
  Path.endswith_slash b = false → Path.rstrip_slash b = b.
Proof.
  induction b as [|c rest IH]; [done|]. intros H.
  destruct rest as [|c' rest'].
  - simpl in *. by rewrite H.
  - change (Path.rstrip_slash (String c (String c' rest')))
      with (match Path.rstrip_slash (String c' rest') with
            | EmptyString => if Path.is_slash c then EmptyString
                             else String c EmptyString
            | String x r => String c (String x r)
            end).
    by rewrite (IH H).
Qed.

Lemma rstrip_slash_app_slash b :
  Path.rstrip_slash (b +:+ "/") = Path.rstrip_slash b.
Proof.
  induction b as [|c rest IH]; [done|].
  change (String c rest +:+ "/") with (String c (rest +:+ "/")).
  simpl. by rewrite IH.
Qed.

Lemma all_slash_app_slash b :
  b ≠ "" → Path.endswith_slash b = false → Path.all_slash (b +:+ "/") = false.
Proof.
  induction b as [|c rest IH]; [done|]. intros _ H.
  change (String c rest +:+ "/") with (String c (rest +:+ "/")). simpl.
  destruct rest as [|c' rest'].
  - simpl in H. by rewrite H.
  - rewrite IH; [apply andb_false_r | done | exact H].
Qed.

Lemma dirname_component b t :
  b ≠ "" → Path.endswith_slash b = false → noslash t = true →
  Path.dirname (b +:+ "/" +:+ t) = b.
Proof.
  intros Hb Hs Ht. unfold Path.dirname. rewrite (cut_component b t Ht).
  simpl fst. rewrite (all_slash_app_slash b Hb Hs).
  assert (String.eqb (b +:+ "/") "" = false) as -> by (by destruct b).
  simpl. rewrite rstrip_slash_app_slash. by apply rstrip_slash_id.
Qed.

Lemma join_component b t :
  b ≠ "" → Path.endswith_slash b = false → noslash t = true →
  Path.join b t = b +:+ "/" +:+ t.
Proof.
  intros Hb Hs Ht. unfold Path.join. rewrite (noslash_startswith t Ht), Hs.
  apply String.eqb_neq in Hb. by rewrite Hb.
Qed.

(** ** The repository test of [ostree_init] *)

Section RepositoryTest.

Context (E : Env).

Lemma keeps_grows_before_init r : keeps grows (before_init r).
Proof.
  unfold before_init.
  keeps_with ltac:(first [apply keeps_grows_log | apply keeps_grows_makedirs]).
Qed.

Lemma ostree_init_split r od w :
  dict_at r w !! "output_dir" = Some (VStr od) →
  ostree_init E r w
  = (before_init r ≫= λ _,
     tree ← getitem r "tree" ;
     tree ← need_str AttributeError tree ;
     let out := Path.join (Path.dirname od) tree in
     present ← isdir out ;
     when (negb present)
          (log_dir ← getitem r "log_dir" ;
           log_dir ← need_str AttributeError log_dir ;
           mock_shell E r (init_cmd out (Path.join log_dir "ostree.log")))) w.
Proof.
  intros Hod. unfold ostree_init, before_init. unfold mbind, M_bind.
  rewrite (getitem_ok r "output_dir" (VStr od) w Hod).
  cbn [need_str mret M_ret].
  repeat match goal with
         | |- context [match ?m w with _ => _ end] => destruct (m w) as [[?|?] ?]
         | |- context [match ?m ?w' with _ => _ end] =>
             is_var w'; destruct (m w') as [[?|?] ?]
         end; reflexivity.
Qed.

Lemma ostree_init_runs_init r od ld tree m md w w2 :
  dict_at r w !! "output_dir" = Some (VStr od) →
  dict_at r w !! "log_dir" = Some (VStr ld) →
  dict_at r w !! "tree" = Some (VStr tree) →
  dict_at r w !! "mock" = Some (VStr m) →
  dict_at r w !! "mock_dir" = Some (VStr md) →
  before_init r w = (Ok tt, w2) →
  Path.join (Path.dirname od) tree ∉ w_dirs w2 →
  w_calls (ostree_init E r w).2
  = (w_calls w ++
      [mock_argv m md
         ["--shell";
          init_cmd (Path.join (Path.dirname od) tree)
                   (Path.join ld "ostree.log")]])%list.
Proof.
  intros Hod Hld Htree Hm Hmd Hpre Hout.
  rewrite (ostree_init_split r od w Hod). rewrite (bind_ok _ _ _ _ _ Hpre).
  destruct (keeps_grows_before_init r w) as (_ & Hc & Hh & _).
  rewrite Hpre in Hc, Hh. simpl in Hc, Hh.
  assert (Hd : dict_at r w2 = dict_at r w) by (unfold dict_at; by rewrite Hh).
  rewrite <- Hd in Hld, Htree, Hm, Hmd.
  step_get Htree. step_pure.
  rewrite (bind_ok _ _ _ _ _ (isdir_false _ _ Hout)).
  cbv beta iota delta [negb when]. step_get Hld. step_pure.
  rewrite (mock_shell_calls E r _ m md w2 Hm Hmd). by rewrite Hc.
Qed.

Lemma ostree_init_calls r od ld tree m md w :
  dict_at r w !! "output_dir" = Some (VStr od) →
  dict_at r w !! "log_dir" = Some (VStr ld) →
  dict_at r w !! "tree" = Some (VStr tree) →
  dict_at r w !! "mock" = Some (VStr m) →
  dict_at r w !! "mock_dir" = Some (VStr md) →
  w_calls (ostree_init E r w).2 = w_calls w
  ∨ w_calls (ostree_init E r w).2
    = (w_calls w ++
        [mock_argv m md
           ["--shell";
            init_cmd (Path.join (Path.dirname od) tree)
                     (Path.join ld "ostree.log")]])%list.
Proof.
  intros Hod Hld Htree Hm Hmd.
  destruct (keeps_grows_before_init r w) as (_ & Hc & Hh & _).
  destruct (before_init r w) as [[[]|e] w2] eqn:Hpre; simpl in Hc, Hh.
  - destruct (decide (Path.join (Path.dirname od) tree ∈ w_dirs w2)) as [Hin|Hout].
    + left. rewrite (ostree_init_split r od w Hod). rewrite (bind_ok _ _ _ _ _ Hpre).
      assert (Hd : dict_at r w2 = dict_at r w) by (unfold dict_at; by rewrite Hh).
      rewrite <- Hd in Htree.
      step_get Htree. step_pure.
      rewrite (bind_ok _ _ _ _ _ (isdir_true _ _ Hin)). exact Hc.
    + right. by apply (ostree_init_runs_init r od ld tree m md w w2).
  - left. rewrite (ostree_init_split r od w Hod).
    rewrite (bind_raise _ _ _ _ _ Hpre). exact Hc.
Qed.

Lemma open_w_fails_unchanged path e w w1 :
  open_w path w = (Raise e, w1) → w1 = w.
Proof. unfold open_w. repeat case_match; congruence. Qed.

Lemma open_w_Ok_grounds path w w1 :
  open_w path w = (Ok tt, w1) →
  (path ∉ w_dirs w) ∧ parent_ok path w = true.
Proof.
  unfold open_w.
  destruct (bool_decide (path ∈ w_dirs w)) eqn:Hd; [congruence|].
  destruct (parent_ok path w) eqn:Hp; simpl; [| congruence]. intros _.
  split; [| done]. by apply bool_decide_eq_false in Hd.
Qed.

Lemma ostree_compose_calls_or r ld gd od m md tf w :
  dict_at r w !! "log_dir" = Some (VStr ld) →
  dict_at r w !! "git_dir" = Some (VStr gd) →
  dict_at r w !! "treefile" = Some tf →
  dict_at r w !! "output_dir" = Some od →
  dict_at r w !! "mock" = Some (VStr m) →
  dict_at r w !! "mock_dir" = Some (VStr md) →
  w_calls (ostree_compose E r w).2 = w_calls w
  ∨ w_calls (ostree_compose E r w).2
    = (w_calls w ++
        [mock_argv m md
           ["--shell";
            compose_cmd (to_text E od) (Path.join gd "treefile.json")
                        (Path.join ld "rpm-ostree.log")]])%list.
Proof.
  intros Hld Hgd Htf Hod Hm Hmd.
  destruct (open_w (Path.join gd "treefile.json") w) as [[[]|e] w1] eqn:Hopen.
  - apply open_w_Ok_grounds in Hopen as [Hnd Hpar].
    destruct (json_dumps E tf) as [text|e] eqn:Hjson.
    + right. by apply (ostree_compose_calls E r ld gd tf text od m md).
    + left. unfold ostree_compose.
      step_get Hld. step_pure. step_pure. step_get Hgd. step_pure.
      rewrite (bind_ok _ _ _ _ _
                 (open_w_ok _ _ Hnd Hpar (treefile_is_a_file_name gd))).
      step_get Htf.
      erewrite bind_raise; [| unfold eval; rewrite Hjson; reflexivity].
      reflexivity.
  - left. unfold ostree_compose.
    step_get Hld. step_pure. step_pure. step_get Hgd. step_pure.
    rewrite (bind_raise _ _ _ _ _ Hopen).
    by rewrite (open_w_fails_unchanged _ _ _ _ Hopen).
Qed.

End RepositoryTest.

(** * The claims *)

Import Sample.

(** Membership in a concrete set of paths or list of commands, decided by
    evaluation. *)
Ltac present_by_computation :=
  refine (bool_decide_unpack _ _); vm_compute; exact I.
Ltac absent_by_computation :=
  refine (bool_decide_eq_false_1 _ _); vm_compute; reflexivity.
Ltac logged_by_computation :=
  vm_compute;
  repeat first [ apply list_elem_of_here | apply list_elem_of_further ].

(** ** The process runner *)

(** C7.  Whatever the process returns once [Popen] has started it, [call]
    does not raise: its result is the triple of the process's standard
    output, standard error and return code.  A non-empty standard error
    and a non-zero return code are each reported as an [ERROR] record in
    the log and nowhere else. *)
Theorem call_returns_the_outcome (E : Env) (argv : list string) (p : proc)
        (w : world) :
  argv ≠ [] →
  popen E argv (w_dirs w) (w_files w) = Some p →
  (call E (VStr <$> argv) w).1 = Ok (p_out p, p_err p, p_returncode p)
  ∧ (p_err p ≠ "" → (ERROR, [LStr (p_err p)]) ∈ w_log (call E (VStr <$> argv) w).2)
  ∧ (p_returncode p ≠ 0 →
     (ERROR, [LStr ("returncode = " +:+ pretty (p_returncode p))])
       ∈ w_log (call E (VStr <$> argv) w).2).
Proof.
  intros Hne Hp. rewrite (call_started E argv p w Hne Hp). simpl.
  split_and!; [done | | by apply after_call_error_logged].
  intros Herr. unfold after_call.
  assert (Hb : negb (String.eqb (p_err p) "") = true).
  { apply negb_true_iff. by apply String.eqb_neq. }
  rewrite Hb.
  destruct (negb (p_returncode p =? 0)); simpl; set_solver.
Qed.

Lemma call_returns_the_outcome_witness :
  let argv := ["git"; "clone"; "-b"; "master"; git_repo hub; "/tmp/x"] in
  (call E_offline (VStr <$> argv) boot).1
  = Ok ("", "fatal: unable to access the repository", 128)
  ∧ (ERROR, [LStr "fatal: unable to access the repository"])
    ∈ w_log (call E_offline (VStr <$> argv) boot).2
  ∧ (ERROR, [LStr "returncode = 128"]) ∈ w_log (call E_offline (VStr <$> argv) boot).2.
Proof.
  intros argv.
  destruct (call_returns_the_outcome E_offline argv
              (Proc "" "fatal: unable to access the repository" 128
                    (w_dirs boot) (w_files boot) 1) boot)
    as (Hres & Herr & Hcode); [done | reflexivity |].
  split_and!; [exact Hres | apply Herr; done | apply Hcode; done].
Defined.

(** ** The chroot manager *)

(** C9.  [init_mock] looks for the directory [/var/lib/mock/<mock>] of the
    release's chroot profile and hands exactly one command to [Popen]:
    [mock --init] when the directory is absent, [mock --update] when it is
    there. *)
Theorem init_mock_inits_or_updates (E : Env) (r : loc) (m md : string)
        (w : world) :
  dict_at r w !! "mock" = Some (VStr m) →
  dict_at r w !! "mock_dir" = Some (VStr md) →
  ("/var/lib/mock/" +:+ m ∉ w_dirs w →
   w_calls (init_mock E r w).2 = (w_calls w ++ [mock_argv m md ["--init"]])%list)
  ∧ ("/var/lib/mock/" +:+ m ∈ w_dirs w →
     w_calls (init_mock E r w).2 = (w_calls w ++ [mock_argv m md ["--update"]])%list).
Proof.
  intros Hm Hmd. rewrite (init_mock_calls E r m md w Hm Hmd).
  split; intros Hd.
  - by rewrite bool_decide_eq_false_2.
  - by rewrite bool_decide_eq_true_2.
Qed.

Lemma init_mock_inits_or_updates_witness :
  let w := at_init_mock E_ok 2%positive (accepted E_ok) in
  let mock := mock_argv "fedora-rawhide-x86_64" "/tmp/tmpq3XaW1/mock" in
  w_calls (init_mock E_ok 2%positive w).2 = (w_calls w ++ [mock ["--init"]])%list
  ∧ w_calls (init_mock E_ok 2%positive (with_chroot w)).2
    = (w_calls (with_chroot w) ++ [mock ["--update"]])%list.
Proof.
  intros w mock. split.
  - refine (proj1 (init_mock_inits_or_updates E_ok 2%positive
                     "fedora-rawhide-x86_64" "/tmp/tmpq3XaW1/mock" w _ _) _).
    + vm_compute. reflexivity.
    + vm_compute. reflexivity.
    + absent_by_computation.
  - refine (proj2 (init_mock_inits_or_updates E_ok 2%positive
                     "fedora-rawhide-x86_64" "/tmp/tmpq3XaW1/mock"
                     (with_chroot w) _ _) _).
    + vm_compute. reflexivity.
    + vm_compute. reflexivity.
    + present_by_computation.
Defined.

(** ** The tree repository manager *)

(** C6.  When the repository path [out], the tree name joined under the
    parent of the expanded output directory, is already a directory,
    [ostree_init] hands no command to [Popen]: a repository that exists is
    not initialised again.  A command is handed over only when [out] is
    absent, and with the parent and the log directory in place it is the
    one [ostree init] for [out]. *)
Theorem ostree_init_skips_existing_repository (E : Env) (r : loc)
        (od tree : string) (w : world) :
  dict_at r w !! "output_dir" = Some (VStr od) →
  dict_at r w !! "tree" = Some (VStr tree) →
  let out := Path.join (Path.dirname od) tree in
  (out ∈ w_dirs w → w_calls (ostree_init E r w).2 = w_calls w)
  ∧ (w_calls (ostree_init E r w).2 ≠ w_calls w → out ∉ w_dirs w)
  ∧ (∀ ld m md,
       dict_at r w !! "log_dir" = Some (VStr ld) →
       dict_at r w !! "mock" = Some (VStr m) →
       dict_at r w !! "mock_dir" = Some (VStr md) →
       Path.dirname od ∈ w_dirs w → ld ∈ w_dirs w → out ∉ w_dirs w →
       w_calls (ostree_init E r w).2
       = (w_calls w ++
           [mock_argv m md ["--shell"; init_cmd out (Path.join ld "ostree.log")]])%list).
Proof.
  intros Hod Htree out. split_and!.
  - intros Hout. by apply (ostree_init_present E r od tree).
  - intros Hcalls Hout. apply Hcalls. by apply (ostree_init_present E r od tree).
  - intros ld m md Hld Hm Hmd Hbase Hlog Hout.
    by apply (ostree_init_absent E r od ld tree m md).
Qed.

Lemma ostree_init_skips_existing_repository_witness :
  let od := "/srv/fedora-atomic/rawhide/x86_64/docker-host" in
  let ld := "/srv/fedora-atomic/logs/rawhide/x86_64/docker-host" in
  let w := at_ostree_init E_ok 2%positive (with_repository (accepted E_ok)) in
  let w' := at_ostree_init E_ok 2%positive (with_parents (accepted E_ok)) in
  w_calls (ostree_init E_ok 2%positive w).2 = w_calls w
  ∧ w_calls (ostree_init E_ok 2%positive w').2
    = (w_calls w' ++
        [mock_argv "fedora-rawhide-x86_64" "/tmp/tmpq3XaW1/mock"
           ["--shell"; init_cmd od (Path.join ld "ostree.log")]])%list.
Proof.
  intros od ld w w'. split.
  - refine (proj1 (ostree_init_skips_existing_repository E_ok 2%positive
                     od "docker-host" w _ _) _).
    + vm_compute. reflexivity.
    + vm_compute. reflexivity.
    + present_by_computation.
  - refine (proj2 (proj2 (ostree_init_skips_existing_repository E_ok 2%positive
                            od "docker-host" w' _ _))
              ld "fedora-rawhide-x86_64" "/tmp/tmpq3XaW1/mock" _ _ _ _ _ _).
    + vm_compute. reflexivity.
    + vm_compute. reflexivity.
    + vm_compute. reflexivity.
    + vm_compute. reflexivity.
    + vm_compute. reflexivity.
    + present_by_computation.
    + present_by_computation.
    + absent_by_computation.
Defined.

(** C8, as the code has it.  The only command [ostree_init] can hand to
    [Popen] is the [ostree init] of the tree name joined under the parent
    of the expanded output directory, and it hands it over when, the
    parent and the log directory made, that path is not a directory.  The
    only command [ostree_compose] can hand over is the compose against the
    expanded output directory itself, and it does when the manifest can be
    written; the summary update is run against that directory too.  The
    two paths are the same when the output directory is spelled as a
    parent, one slash and the tree name. *)
Theorem repository_paths_of_a_run (E : Env) (r : loc)
        (od ld tree gd m md : string) (tf name : pyval) (w : world) :
  dict_at r w !! "output_dir" = Some (VStr od) →
  dict_at r w !! "log_dir" = Some (VStr ld) →
  dict_at r w !! "tree" = Some (VStr tree) →
  dict_at r w !! "git_dir" = Some (VStr gd) →
  dict_at r w !! "treefile" = Some tf →
  dict_at r w !! "name" = Some name →
  dict_at r w !! "mock" = Some (VStr m) →
  dict_at r w !! "mock_dir" = Some (VStr md) →
  let out := Path.join (Path.dirname od) tree in
  let treefile := Path.join gd "treefile.json" in
  let init :=
    mock_argv m md ["--shell"; init_cmd out (Path.join ld "ostree.log")] in
  let build :=
    mock_argv m md
      ["--shell"; compose_cmd od treefile (Path.join ld "rpm-ostree.log")] in
  (w_calls (ostree_init E r w).2 = w_calls w
   ∨ w_calls (ostree_init E r w).2 = (w_calls w ++ [init])%list)
  ∧ (∀ w2, before_init r w = (Ok tt, w2) → out ∉ w_dirs w2 →
           w_calls (ostree_init E r w).2 = (w_calls w ++ [init])%list)
  ∧ (w_calls (ostree_compose E r w).2 = w_calls w
     ∨ w_calls (ostree_compose E r w).2 = (w_calls w ++ [build])%list)
  ∧ (∀ text, treefile ∉ w_dirs w → parent_ok treefile w = true →
             json_dumps E tf = Ok text →
             w_calls (ostree_compose E r w).2 = (w_calls w ++ [build])%list)
  ∧ w_calls (update_ostree_summary E r w).2
    = (w_calls w ++ [mock_argv m md ["--shell"; summary_cmd od]])%list
  ∧ (∀ parent, parent ≠ "" → Path.endswith_slash parent = false →
               noslash tree = true → od = parent +:+ "/" +:+ tree →
               out = od).
Proof.
  intros Hod Hld Htree Hgd Htf Hname Hm Hmd out treefile init build.
  split_and!.
  - by apply (ostree_init_calls E r od ld tree m md).
  - intros w2 Hpre Hout.
    by apply (ostree_init_runs_init E r od ld tree m md w w2).
  - by apply (ostree_compose_calls_or E r ld gd (VStr od) m md tf).
  - intros text Hnd Hpar Hjson.
    by apply (ostree_compose_calls E r ld gd tf text (VStr od) m md).
  - by apply (update_ostree_summary_calls E r name (VStr od) m md).
  - intros parent Hne Hs Hn ->. unfold out.
    rewrite (dirname_component parent tree Hne Hs Hn).
    by apply join_component.
Qed.

Lemma repository_paths_of_a_run_witness :
  let od := "/srv/fedora-atomic/rawhide/x86_64/docker-host" in
  let ld := "/srv/fedora-atomic/logs/rawhide/x86_64/docker-host" in
  let gd := "/tmp/tmpq3XaW1/fedora-atomic.git" in
  let mock := mock_argv "fedora-rawhide-x86_64" "/tmp/tmpq3XaW1/mock" in
  let w := at_ostree_compose E_ok 2%positive (accepted E_ok) in
  w_calls (ostree_init E_ok 2%positive w).2
  = (w_calls w ++
      [mock ["--shell";
             init_cmd (Path.join (Path.dirname od) "docker-host")
                      (Path.join ld "ostree.log")]])%list
  ∧ w_calls (ostree_compose E_ok 2%positive w).2
    = (w_calls w ++
        [mock ["--shell";
               compose_cmd od (Path.join gd "treefile.json")
                           (Path.join ld "rpm-ostree.log")]])%list
  ∧ w_calls (update_ostree_summary E_ok 2%positive w).2
    = (w_calls w ++ [mock ["--shell"; summary_cmd od]])%list
  ∧ Path.join (Path.dirname od) "docker-host" = od.
Proof.
  intros od ld gd mock w.
  destruct (repository_paths_of_a_run E_ok 2%positive
              od ld "docker-host" gd
              "fedora-rawhide-x86_64" "/tmp/tmpq3XaW1/mock"
              (VDict [("ref", VStr "fedora-atomic/rawhide/x86_64/docker-host");
                      ("packages", VList [VStr "kernel"; VStr "ostree"])])
              (VStr "rawhide") w)
    as (_ & Hinit & _ & Hcompose & Hsummary & Hsame);
    try (vm_compute; reflexivity).
  split_and!; [| | exact Hsummary |].
  - apply (Hinit w); [vm_compute; reflexivity | absent_by_computation].
  - apply (Hcompose "{}");
      [absent_by_computation | vm_compute; reflexivity | reflexivity].
  - apply (Hsame "/srv/fedora-atomic/rawhide/x86_64"); done.
Defined.

(** C8, as the claim states it, fails on the sample run: the tree name
    joined under the expanded output directory is
    [.../docker-host/docker-host], and none of the three commands is run
    against it. *)
Lemma repository_is_not_tree_under_output_dir :
  let od := "/srv/fedora-atomic/rawhide/x86_64/docker-host" in
  let ld := "/srv/fedora-atomic/logs/rawhide/x86_64/docker-host" in
  let mock := mock_argv "fedora-rawhide-x86_64" "/tmp/tmpq3XaW1/mock" in
  dict_at 2%positive (accepted E_ok) !! "output_dir" = Some (VStr od)
  ∧ dict_at 2%positive (accepted E_ok) !! "tree" = Some (VStr "docker-host")
  ∧ w_calls (compose E_ok hub 2%positive (accepted E_ok)).2
    = [ clone_argv hub "master" "/tmp/tmpq3XaW1/fedora-atomic.git";
        mock ["--init"];
        mock ["--shell"; init_cmd od (Path.join ld "ostree.log")];
        mock ["--shell";
              compose_cmd od "/tmp/tmpq3XaW1/fedora-atomic.git/treefile.json"
                          (Path.join ld "rpm-ostree.log")];
        mock ["--shell"; summary_cmd od] ]
  ∧ Path.join od "docker-host" ≠ od.
Proof.
  intros od ld mock. split_and!; try (vm_compute; reflexivity).
  vm_compute. discriminate.
Qed.

(** ** The compose pipeline *)

(** C1, as the code has it.  [cleanup] is the last statement of [compose]:
    when [compose] returns, the scratch directory [release['tmp_dir']] is
    gone; when one of steps 1 to 6 raises, the exception leaves [compose]
    from that step, in the world that step left, and [cleanup] is not
    run. *)
Theorem compose_cleans_up_only_on_success (E : Env) (self : consumer)
        (r : loc) (t : string) (w : world) :
  dict_at r w !! "tmp_dir" = Some (VStr t) →
  (∀ w', compose E self r w = (Ok tt, w') → t ∉ w_dirs w')
  ∧ (∀ e w1, before_cleanup E self r w = (Raise e, w1) →
             compose E self r w = (Raise e, w1)).
Proof.
  intros Ht. split.
  - intros w' Hrun. rewrite compose_split in Hrun.
    apply bind_inv_ok in Hrun as (a & w1 & Hsteps & Hclean).
    pose proof (keeps_writes_before_cleanup E self r w) as [(_ & _ & Hkeys) _].
    rewrite Hsteps in Hkeys. simpl in Hkeys.
    apply (cleanup_removes r t w1 w'); [| exact Hclean].
    rewrite Hkeys; [exact Ht |]. unfold run_keys. intros [?|?]; discriminate.
  - intros e w1 Hsteps. rewrite compose_split. by apply bind_raise.
Qed.

Lemma compose_cleans_up_only_on_success_witness :
  ("/tmp/tmpq3XaW1" ∉ w_dirs (compose E_ok hub 2%positive (accepted E_ok)).2)
  ∧ compose E_offline hub 2%positive (accepted E_offline)
    = (Raise (IOError ENOENT "/tmp/tmpq3XaW1/fedora-atomic.git/treefile.json"),
       (before_cleanup E_offline hub 2%positive (accepted E_offline)).2).
Proof.
  split.
  - apply (compose_cleans_up_only_on_success E_ok hub 2%positive
             "/tmp/tmpq3XaW1" (accepted E_ok)).
    + vm_compute. reflexivity.
    + apply run_eq. vm_compute. reflexivity.
  - apply (compose_cleans_up_only_on_success E_offline hub 2%positive
             "/tmp/tmpq3XaW1" (accepted E_offline)).
    + vm_compute. reflexivity.
    + apply run_eq. vm_compute. reflexivity.
Defined.

(** C1, as the claim states it, fails when the clone of step 1 fails: step
    5 cannot open the manifest in the clone directory that was never made,
    [compose] raises, and the scratch directory is still there. *)
Lemma scratch_dir_survives_a_failed_run :
  dict_at 2%positive (accepted E_offline) !! "tmp_dir"
  = Some (VStr "/tmp/tmpq3XaW1")
  ∧ (compose E_offline hub 2%positive (accepted E_offline)).1
    = Raise (IOError ENOENT "/tmp/tmpq3XaW1/fedora-atomic.git/treefile.json")
  ∧ "/tmp/tmpq3XaW1"
    ∈ w_dirs (compose E_offline hub 2%positive (accepted E_offline)).2.
Proof.
  split_and!; try (vm_compute; reflexivity); present_by_computation.
Qed.

(** C2, as the code has it.  When the clone of step 1 exits with a
    non-zero code, [call] logs the code as an error, [update_configs]
    returns, and the run goes on with step 2 in the world the clone
    left. *)
Theorem failed_clone_is_logged_and_the_run_goes_on (E : Env) (self : consumer)
        (r : loc) (t b : string) (p : proc) (w : world) :
  dict_at r w !! "tmp_dir" = Some (VStr t) →
  dict_at r w !! "git_branch" = Some (VStr b) →
  let git_dir := Path.join t (Path.basename (git_repo self)) in
  popen E (clone_argv self b git_dir) (w_dirs w) (w_files w) = Some p →
  p_returncode p ≠ 0 →
  ∃ w1,
    update_configs E self r w = (Ok tt, w1)
    ∧ (ERROR, [LStr ("returncode = " +:+ pretty (p_returncode p))]) ∈ w_log w1
    ∧ compose E self r w
      = (generate_mock_config E r ≫= λ _, init_mock E r ≫= λ _,
         ostree_init E r ≫= λ _, ostree_compose E r ≫= λ _,
         update_ostree_summary E r ≫= λ _, cleanup r) w1.
Proof.
  intros Ht Hb git_dir Hp Hcode.
  pose proof (update_configs_started E self r t b p w Ht Hb Hp) as Hrun.
  eexists. split_and!; [exact Hrun | by apply after_call_error_logged |].
  unfold compose. by rewrite (bind_ok _ _ _ _ _ Hrun).
Qed.

Lemma failed_clone_is_logged_and_the_run_goes_on_witness :
  ∃ w1,
    update_configs E_offline hub 2%positive (accepted E_offline) = (Ok tt, w1)
    ∧ (ERROR, [LStr "returncode = 128"]) ∈ w_log w1
    ∧ compose E_offline hub 2%positive (accepted E_offline)
      = (generate_mock_config E_offline 2%positive ≫= λ _,
         init_mock E_offline 2%positive ≫= λ _,
         ostree_init E_offline 2%positive ≫= λ _,
         ostree_compose E_offline 2%positive ≫= λ _,
         update_ostree_summary E_offline 2%positive ≫= λ _,
         cleanup 2%positive) w1.
Proof.
  apply (failed_clone_is_logged_and_the_run_goes_on E_offline hub 2%positive
           "/tmp/tmpq3XaW1" "master"
           (Proc "" "fatal: unable to access the repository" 128
                 (w_dirs (accepted E_offline)) (w_files (accepted E_offline)) 1)
           (accepted E_offline)).
  - vm_compute. reflexivity.
  - vm_compute. reflexivity.
  - reflexivity.
  - discriminate.
Defined.

(** C2, as the claim states it, fails on the sample run without network:
    the clone exits with 128 and [update_configs] returns; step 2 then
    makes the chroot config directory, step 3 runs [mock --init] and step
    4 runs [ostree init]. *)
Lemma later_steps_run_after_a_failed_clone :
  let run := compose E_offline hub 2%positive (accepted E_offline) in
  let mock := mock_argv "fedora-rawhide-x86_64" "/tmp/tmpq3XaW1/mock" in
  (update_configs E_offline hub 2%positive (accepted E_offline)).1 = Ok tt
  ∧ (ERROR, [LStr "returncode = 128"])
    ∈ w_log (update_configs E_offline hub 2%positive (accepted E_offline)).2
  ∧ "/tmp/tmpq3XaW1/mock" ∈ w_dirs run.2
  ∧ w_calls run.2
    = [ clone_argv hub "master" "/tmp/tmpq3XaW1/fedora-atomic.git";
        mock ["--init"];
        mock ["--shell";
              init_cmd "/srv/fedora-atomic/rawhide/x86_64/docker-host"
                "/srv/fedora-atomic/logs/rawhide/x86_64/docker-host/ostree.log"] ].
Proof.
  intros run mock. split_and!; try (vm_compute; reflexivity);
    first [ present_by_computation | logged_by_computation ].
Qed.

Lemma dict_at_after_call r argv p w :
  dict_at r (after_call argv p w) = dict_at r w.
Proof.
  destruct (after_call_store argv p w) as [Hh _]. unfold dict_at. by rewrite Hh.
Qed.

(** C5.  In a run that reaches step 5 and whose compose command comes back
    with a non-zero code, [ostree_compose] logs the code as an error and
    returns; the run goes on with [update_ostree_summary], which hands the
    summary update to [Popen]. *)
Theorem summary_is_updated_after_a_failed_compose (E : Env) (self : consumer)
        (r : loc) (ld gd text m md : string) (tf od name : pyval) (p : proc)
        (w w4 : world) :
  before_compose E self r w = (Ok tt, w4) →
  dict_at r w4 !! "log_dir" = Some (VStr ld) →
  dict_at r w4 !! "git_dir" = Some (VStr gd) →
  dict_at r w4 !! "treefile" = Some tf →
  dict_at r w4 !! "output_dir" = Some od →
  dict_at r w4 !! "mock" = Some (VStr m) →
  dict_at r w4 !! "mock_dir" = Some (VStr md) →
  dict_at r w4 !! "name" = Some name →
  let treefile := Path.join gd "treefile.json" in
  let argv := mock_argv m md
                ["--shell";
                 compose_cmd (to_text E od) treefile
                             (Path.join ld "rpm-ostree.log")] in
  treefile ∉ w_dirs w4 → parent_ok treefile w4 = true →
  json_dumps E tf = Ok text →
  popen E argv (w_dirs w4) (<[treefile := Regular text]> (w_files w4)) = Some p →
  p_returncode p ≠ 0 →
  ∃ w5,
    ostree_compose E r w4 = (Ok tt, w5)
    ∧ (ERROR, [LStr ("returncode = " +:+ pretty (p_returncode p))]) ∈ w_log w5
    ∧ compose E self r w = (update_ostree_summary E r ≫= λ _, cleanup r) w5
    ∧ mock_argv m md ["--shell"; summary_cmd (to_text E od)]
      ∈ w_calls (compose E self r w).2.
Proof.
  intros Hpre Hld Hgd Htf Hod Hm Hmd Hname treefile argv Hnd Hpar Hjson Hp Hcode.
  pose proof (ostree_compose_started E r ld gd tf text od m md p w4
                Hld Hgd Htf Hod Hm Hmd Hnd Hpar Hjson Hp) as Hrun.
  fold treefile in Hrun. fold argv in Hrun.
  set (w5 := add_log (INFO, [LStr "rpm-ostree compose complete (%s)";
                             LDelta (p_elapsed p)])
               (add_log (DEBUG, [LStr (p_out p)])
                  (after_call argv p (manifest_written treefile text w4)))) in *.
  assert (Hdict : dict_at r w5 = dict_at r w4).
  { subst w5. unfold dict_at at 1. simpl.
    change (default ∅ (w_heap (after_call argv p (manifest_written treefile text w4)) !! r))
      with (dict_at r (after_call argv p (manifest_written treefile text w4))).
    by rewrite dict_at_after_call. }
  assert (Hgo : compose E self r w
                = (update_ostree_summary E r ≫= λ _, cleanup r) w5).
  { rewrite (compose_from_step5 E self r w w4 Hpre).
    by rewrite (bind_ok _ _ _ _ _ Hrun). }
  exists w5. split_and!; [exact Hrun | | exact Hgo |].
  - subst w5. simpl. apply elem_of_app. left. apply elem_of_app. left.
    by apply after_call_error_logged.
  - rewrite Hgo. rewrite bind_quiet_calls by (intros _; apply keeps_calls_cleanup).
    rewrite (update_ostree_summary_calls E r name od m md w5);
      try (rewrite Hdict; assumption).
    apply elem_of_app. right. by apply list_elem_of_singleton.
Qed.

Lemma summary_is_updated_after_a_failed_compose_witness :
  ∃ w5,
    ostree_compose E_bad_tree 2%positive
      (at_ostree_compose E_bad_tree 2%positive (accepted E_bad_tree)) = (Ok tt, w5)
    ∧ (ERROR, [LStr "returncode = 1"]) ∈ w_log w5
    ∧ compose E_bad_tree hub 2%positive (accepted E_bad_tree)
      = (update_ostree_summary E_bad_tree 2%positive ≫= λ _, cleanup 2%positive) w5
    ∧ mock_argv "fedora-rawhide-x86_64" "/tmp/tmpq3XaW1/mock"
        ["--shell"; summary_cmd "/srv/fedora-atomic/rawhide/x86_64/docker-host"]
      ∈ w_calls (compose E_bad_tree hub 2%positive (accepted E_bad_tree)).2.
Proof.
  set (w4 := at_ostree_compose E_bad_tree 2%positive (accepted E_bad_tree)).
  apply (summary_is_updated_after_a_failed_compose E_bad_tree hub 2%positive
           "/srv/fedora-atomic/logs/rawhide/x86_64/docker-host"
           "/tmp/tmpq3XaW1/fedora-atomic.git" "{}"
           "fedora-rawhide-x86_64" "/tmp/tmpq3XaW1/mock"
           (VDict [("ref", VStr "fedora-atomic/rawhide/x86_64/docker-host");
                   ("packages", VList [VStr "kernel"; VStr "ostree"])])
           (VStr "/srv/fedora-atomic/rawhide/x86_64/docker-host")
           (VStr "rawhide")
           (Proc "" "" 1 (w_dirs w4)
                 (<["/tmp/tmpq3XaW1/fedora-atomic.git/treefile.json" := Regular "{}"]>
                    (w_files w4)) 40)
           (accepted E_bad_tree) w4).
  - unfold w4, at_ostree_compose. apply run_eq. vm_compute. reflexivity.
  - vm_compute. reflexivity.
  - vm_compute. reflexivity.
  - vm_compute. reflexivity.
  - vm_compute. reflexivity.
  - vm_compute. reflexivity.
  - vm_compute. reflexivity.
  - vm_compute. reflexivity.
  - absent_by_computation.
  - vm_compute. reflexivity.
  - reflexivity.
  - vm_compute. reflexivity.
  - discriminate.
Defined.

(** ** The event dispatcher *)

Lemma consume_unknown_topic (E : Env) (self : consumer) (msg : event) (w : world) :
  Path.contains "rawhide" (topic msg) = false →
  Path.contains "branched" (topic msg) = false →
  Path.contains "updates.fedora" (topic msg) = false →
  consume E self msg w
  = schedule E self None
      (add_log (WARN, [LStr "Unknown topic: %s"; LStr (topic msg)])
         (add_log (INFO, [LEvent msg]) w)).
Proof. intros H1 H2 H3. unfold consume. rewrite H1, H2, H3. reflexivity. Qed.

(** C3.  On the topic of a build-state change, which carries none of the
    markers, [consume] logs the warning and then goes on to look up
    [self.releases[None]]: it raises [KeyError] instead of returning.
    (No run is scheduled, because the lookup failed.) *)
Theorem consume_unknown_topic_raises :
  Path.contains "rawhide" (topic build_change) = false
  ∧ Path.contains "branched" (topic build_change) = false
  ∧ Path.contains "updates.fedora" (topic build_change) = false
  ∧ consume E_ok hub build_change boot
    = (Raise (KeyError None),
       add_log (WARN, [LStr "Unknown topic: %s"; LStr (topic build_change)])
         (add_log (INFO, [LEvent build_change]) boot)).
Proof.
  split_and!; [reflexivity.. |].
  rewrite consume_unknown_topic by reflexivity.
  vm_compute. reflexivity.
Qed.

(** C4.  An event that the branched rule takes (the rules are tried in
    order, so its topic has the branched marker and is not one the rawhide
    rule before it takes) and whose [log] field is not ["done"] schedules
    nothing and leaves the store, the filesystem and the command trace
    alone.  With the fields the rule reads in its body, [arch], [branch]
    and [log], [consume] logs the warning and returns without raising. *)
Theorem pending_branched_compose_is_ignored (E : Env) (self : consumer)
        (msg : event) (w : world) :
  Path.contains "rawhide" (topic msg) = false →
  Path.contains "branched" (topic msg) = true →
  fields msg !! "log" ≠ Some "done" →
  (w_threads (consume E self msg w).2 = w_threads w
   ∧ w_heap (consume E self msg w).2 = w_heap w
   ∧ w_dirs (consume E self msg w).2 = w_dirs w
   ∧ w_calls (consume E self msg w).2 = w_calls w)
  ∧ (∀ arch branch lg,
       fields msg !! "arch" = Some arch →
       fields msg !! "branch" = Some branch →
       fields msg !! "log" = Some lg →
       consume E self msg w
       = (Ok tt,
          add_log (WARN, [LStr "Compose not done?"])
            (add_log (INFO, [LStr "New %s %s branched compose ready";
                             LStr branch; LStr arch])
               (add_log (INFO, [LEvent msg]) w)))).
Proof.
  intros Hraw Hbr Hlog.
  assert (Hne : ∀ lg, fields msg !! "log" = Some lg → String.eqb lg "done" = false).
  { intros lg Hlg. apply String.eqb_neq. intros ->. by apply Hlog. }
  split.
  - unfold consume. rewrite Hraw, Hbr. unfold field, mbind, M_bind, log.
    destruct (fields msg !! "arch") as [arch|]; [| done].
    destruct (fields msg !! "branch") as [branch|]; [| done].
    destruct (fields msg !! "log") as [lg|] eqn:Hlg; [| done].
    simpl. by rewrite (Hne lg eq_refl).
  - intros arch branch lg Harch Hbranch Hlg.
    unfold consume. rewrite Hraw, Hbr. unfold field, mbind, M_bind, log.
    rewrite Harch, Hbranch, Hlg. simpl. by rewrite (Hne lg Hlg).
Qed.

Lemma pending_branched_compose_is_ignored_witness :
  w_threads (consume E_ok hub branched_pending boot).2 = w_threads boot
  ∧ consume E_ok hub branched_pending boot
    = (Ok tt,
       add_log (WARN, [LStr "Compose not done?"])
         (add_log (INFO, [LStr "New %s %s branched compose ready";
                          LStr "f21"; LStr "x86_64"])
            (add_log (INFO, [LEvent branched_pending]) boot))).
Proof.
  destruct (pending_branched_compose_is_ignored E_ok hub branched_pending boot)
    as [(Hthreads & _) Hrun].
  - reflexivity.
  - reflexivity.
  - vm_compute. discriminate.
  - split; [exact Hthreads |].
    apply (Hrun "x86_64" "f21" "pending"); vm_compute; reflexivity.
Defined.

(** ** Release specifications *)

(** C10.  [consume] leaves the releases mapping and every dict object that
    existed alone: the run it schedules gets a new object, whose items
    are those of the release it looked up except for [tmp_dir],
    [output_dir] and [log_dir].  Every step of the pipeline, and [compose]
    as a whole, assigns only to the dict it was given, under [git_dir] and
    [mock_dir], and leaves the mapping alone.  So after an event and the
    run it scheduled, every dict object that existed before the event is
    what it was. *)
Theorem release_specs_are_left_alone (E : Env) (self : consumer) :
  (∀ msg w, dispatched (classify msg) w (consume E self msg w).2)
  ∧ (∀ r w,
       writes r run_keys w (update_configs E self r w).2
       ∧ writes r run_keys w (generate_mock_config E r w).2
       ∧ same_store w (init_mock E r w).2
       ∧ same_store w (ostree_init E r w).2
       ∧ same_store w (ostree_compose E r w).2
       ∧ same_store w (update_ostree_summary E r w).2
       ∧ same_store w (cleanup r w).2
       ∧ writes r run_keys w (compose E self r w).2)
  ∧ (∀ msg w r l,
       r ∈ w_threads (consume E self msg w).2 → r ∉ w_threads w →
       l ∈ dom (w_heap w) →
       w_heap (compose E self r (consume E self msg w).2).2 !! l = w_heap w !! l
       ∧ w_releases (compose E self r (consume E self msg w).2).2 = w_releases w).
Proof.
  split_and!.
  - intros msg w. apply consume_dispatched.
  - intros r w. split_and!.
    + apply keeps_writes_update_configs.
    + apply keeps_writes_generate_mock_config.
    + apply keeps_store_init_mock.
    + apply keeps_store_ostree_init.
    + apply keeps_store_ostree_compose.
    + apply keeps_store_update_ostree_summary.
    + apply keeps_store_cleanup.
    + apply keeps_writes_compose.
  - intros msg w r l Hr Hnew Hl.
    destruct (consume_dispatched E self msg w) as (Hrel & Hold & Hthr).
    destruct (keeps_writes_compose E self r (consume E self msg w).2)
      as [(Hrel' & Hoth & _) _].
    destruct Hthr as [Hthr | (r0 & src & _ & Hfresh & Hthr & _)].
    { rewrite Hthr in Hr. contradiction. }
    rewrite Hthr in Hr. apply elem_of_app in Hr as [Hr | Hr]; [contradiction |].
    apply list_elem_of_singleton in Hr as ->.
    split; [| congruence].
    rewrite Hoth; [by apply Hold |]. intros ->. contradiction.
Qed.

Lemma release_specs_are_left_alone_witness :
  w_heap (compose E_ok hub 2%positive (consume E_ok hub rawhide_done boot).2).2
    !! 1%positive = w_heap boot !! 1%positive
  ∧ w_releases (compose E_ok hub 2%positive (consume E_ok hub rawhide_done boot).2).2
    = w_releases boot.
Proof.
  apply (proj2 (proj2 (release_specs_are_left_alone E_ok hub))
           rawhide_done boot 2%positive 1%positive).
  - present_by_computation.
  - absent_by_computation.
  - present_by_computation.
Defined.

(** * Further properties of the consumer *)

(** ** The dispatcher *)

Lemma logged_logged l1 l2 w : logged l2 (logged l1 w) = logged (l1 ++ l2) w.
Proof. unfold logged. simpl. by rewrite app_assoc. Qed.

Lemma field_ok msg k v w : fields msg !! k = Some v → field msg k w = (Ok v, w).
Proof. intros H. unfold field. by rewrite H. Qed.

Lemma add_log_logged r l w : add_log r (logged l w) = logged (l ++ [r]) w.
Proof. unfold add_log, logged. simpl. by rewrite app_assoc. Qed.

(** When [consume] gets as far as the lookup, all it has done is log. *)
Lemma consume_reaches_lookup (E : Env) (self : consumer) (msg : event)
      (k : option string) (w : world) :
  lookup_key msg = Some k →
  ∃ l, consume E self msg w = schedule E self k (logged l w).
Proof.
  unfold lookup_key, consume. intros Hk.
  rewrite (bind_ok (log INFO [LEvent msg]) _ w tt (logged [(INFO, [LEvent msg])] w) eq_refl).
  destruct (Path.contains "rawhide" (topic msg)).
  { destruct (fields msg !! "arch") as [arch|] eqn:Harch; [| done].
    simpl in Hk. injection Hk as <-.
    rewrite (bind_ok _ _ _ _ _ (field_ok _ _ _ _ Harch)).
    erewrite bind_ok; [| reflexivity]. rewrite add_log_logged. by eexists. }
  destruct (Path.contains "branched" (topic msg)).
  { destruct (fields msg !! "arch") as [arch|] eqn:Harch; [| done].
    destruct (fields msg !! "branch") as [branch|] eqn:Hbranch; [| done].
    destruct (fields msg !! "log") as [lg|] eqn:Hlg; [| done].
    simpl in Hk. destruct (String.eqb lg "done") eqn:Hdone; [| done].
    injection Hk as <-.
    rewrite (bind_ok _ _ _ _ _ (field_ok _ _ _ _ Harch)).
    rewrite (bind_ok _ _ _ _ _ (field_ok _ _ _ _ Hbranch)).
    erewrite bind_ok; [| reflexivity]. rewrite add_log_logged.
    rewrite (bind_ok _ _ _ _ _ (field_ok _ _ _ _ Hlg)).
    rewrite Hdone. by eexists. }
  destruct (Path.contains "updates.fedora" (topic msg)).
  { destruct (fields msg !! "release") as [rel|] eqn:Hrel; [| done].
    destruct (fields msg !! "repo") as [rep|] eqn:Hrep; [| done].
    simpl in Hk. injection Hk as <-.
    erewrite bind_ok; [| reflexivity]. rewrite add_log_logged.
    rewrite (bind_ok _ _ _ _ _ (field_ok _ _ _ _ Hrel)).
    rewrite (bind_ok _ _ _ _ _ (field_ok _ _ _ _ Hrep)).
    by eexists. }
  injection Hk as <-.
  erewrite bind_ok; [| reflexivity]. rewrite add_log_logged. by eexists.
Qed.

Lemma consume_stops_early (E : Env) (self : consumer) (msg : event) (w : world) :
  lookup_key msg = None →
  ∃ l, (consume E self msg w).2 = logged l w.
Proof.
  unfold lookup_key, consume. intros Hk.
  rewrite (bind_ok (log INFO [LEvent msg]) _ w tt (logged [(INFO, [LEvent msg])] w) eq_refl).
  destruct (Path.contains "rawhide" (topic msg)).
  { destruct (fields msg !! "arch") as [arch|] eqn:Harch; [done |].
    unfold field. rewrite Harch. by eexists. }
  destruct (Path.contains "branched" (topic msg)).
  { destruct (fields msg !! "arch") as [arch|] eqn:Harch;
      [| unfold field; rewrite Harch; by eexists].
    rewrite (bind_ok _ _ _ _ _ (field_ok _ _ _ _ Harch)).
    destruct (fields msg !! "branch") as [branch|] eqn:Hbranch;
      [| unfold field; rewrite Hbranch; by eexists].
    rewrite (bind_ok _ _ _ _ _ (field_ok _ _ _ _ Hbranch)).
    erewrite bind_ok; [| reflexivity]. rewrite add_log_logged.
    destruct (fields msg !! "log") as [lg|] eqn:Hlg;
      [| unfold field; rewrite Hlg; by eexists].
    rewrite (bind_ok _ _ _ _ _ (field_ok _ _ _ _ Hlg)).
    simpl in Hk. destruct (String.eqb lg "done"); [done |].
    simpl. rewrite add_log_logged. by eexists. }
  destruct (Path.contains "updates.fedora" (topic msg)); [| done].
  erewrite bind_ok; [| reflexivity]. rewrite add_log_logged.
  destruct (fields msg !! "release") as [rel|] eqn:Hrel;
    [| unfold field; rewrite Hrel; by eexists].
  rewrite (bind_ok _ _ _ _ _ (field_ok _ _ _ _ Hrel)).
  destruct (fields msg !! "repo") as [rep|] eqn:Hrep; [done |].
  unfold field. rewrite Hrep. by eexists.
Qed.

(** X1.  An event on which [consume] does not get as far as the release
    lookup (a field it reads is missing, or a branched compose is not
    done) changes nothing but the log: no scratch directory, no copy, no
    run, no command. *)
Theorem consume_without_lookup_only_logs (E : Env) (self : consumer)
        (msg : event) (w : world) :
  lookup_key msg = None →
  w_dirs (consume E self msg w).2 = w_dirs w
  ∧ w_files (consume E self msg w).2 = w_files w
  ∧ w_heap (consume E self msg w).2 = w_heap w
  ∧ w_releases (consume E self msg w).2 = w_releases w
  ∧ w_threads (consume E self msg w).2 = w_threads w
  ∧ w_calls (consume E self msg w).2 = w_calls w.
Proof.
  intros Hk. destruct (consume_stops_early E self msg w Hk) as [l ->]. done.
Qed.

Lemma consume_without_lookup_only_logs_witness :
  let msg := Event "org.fedoraproject.prod.compose.rawhide.rsync.complete" ∅ in
  (consume E_ok hub msg boot).1 = Raise (KeyError (Some "arch"))
  ∧ w_dirs (consume E_ok hub msg boot).2 = w_dirs boot
  ∧ w_threads (consume E_ok hub msg boot).2 = w_threads boot.
Proof.
  intros msg.
  destruct (consume_without_lookup_only_logs E_ok hub msg boot)
    as (Hd & _ & _ & _ & Ht & _); [reflexivity |].
  split_and!; [vm_compute; reflexivity | exact Hd | exact Ht].
Defined.

(** X2.  When the release identifier an event is classified to is not a
    key of [self.releases], [consume] raises [KeyError] for that
    identifier, having done nothing but log. *)
Theorem consume_unknown_release_raises (E : Env) (self : consumer)
        (msg : event) (k : option string) (w : world) :
  lookup_key msg = Some k →
  w_releases w !! k = None →
  ∃ l, consume E self msg w = (Raise (KeyError k), logged l w).
Proof.
  intros Hk Hrel. destruct (consume_reaches_lookup E self msg k w Hk) as [l ->].
  exists l. unfold schedule, deepcopy_release, mbind, M_bind.
  change (w_releases (logged l w)) with (w_releases w). by rewrite Hrel.
Qed.

Lemma consume_unknown_release_raises_witness :
  let msg := Event "org.fedoraproject.prod.bodhi.updates.fedora.sync"
                   (list_to_map [("release", "21"); ("repo", "updates")]) in
  ∃ l, consume E_ok hub msg boot = (Raise (KeyError (Some "f21-updates")), logged l boot).
Proof.
  intros msg.
  apply (consume_unknown_release_raises E_ok hub msg (Some "f21-updates") boot).
  - vm_compute. reflexivity.
  - vm_compute. reflexivity.
Defined.

Lemma mkdir_ok p w :
  exists_b p w = false → parent_ok p w = true →
  mkdir p w = (Ok tt, set_fs ({[p]} ∪ w_dirs w) (w_files w) w).
Proof. intros He Hp. unfold mkdir. by rewrite He, Hp. Qed.

Lemma mkdir_fails_unchanged p e w w1 : mkdir p w = (Raise e, w1) → w1 = w.
Proof. unfold mkdir. repeat case_match; congruence. Qed.

Lemma mkdir_Ok_inv p w w1 :
  mkdir p w = (Ok tt, w1) →
  exists_b p w = false ∧ w1 = set_fs ({[p]} ∪ w_dirs w) (w_files w) w.
Proof. unfold mkdir. repeat case_match; intros; simplify_eq; done. Qed.

Lemma mkdtemp_first names t rest w :
  names = t :: rest → exists_b t w = false → parent_ok t w = true →
  mkdtemp_from names w = (Ok t, set_fs ({[t]} ∪ w_dirs w) (w_files w) w).
Proof. intros -> He Hp. simpl. by rewrite (mkdir_ok t w He Hp). Qed.

Lemma mkdtemp_Ok_inv names t w w1 :
  mkdtemp_from names w = (Ok t, w1) →
  t ∈ names ∧ exists_b t w = false
  ∧ w1 = set_fs ({[t]} ∪ w_dirs w) (w_files w) w.
Proof.
  induction names as [|name rest IH]; [done|]. simpl.
  destruct (mkdir name w) as [[[]|e] w2] eqn:Hm.
  - intros [= <- <-]. apply mkdir_Ok_inv in Hm as [He ->].
    split_and!; [apply list_elem_of_here | done | done].
  - apply mkdir_fails_unchanged in Hm as ->.
    destruct e as [| | | |[] p| |]; try done.
    intros H. destruct (IH H) as (Hin & He & ->).
    split_and!; [by apply list_elem_of_further | done | done].
Qed.

Lemma dict_at_set_heap_eq r d h w : dict_at r (set_heap (<[r := d]> h) w) = d.
Proof. unfold dict_at. simpl. by rewrite lookup_insert_eq. Qed.

Lemma dict_at_set_fs r ds fs w : dict_at r (set_fs ds fs w) = dict_at r w.
Proof. reflexivity. Qed.

Section Schedule.

Context (E : Env) (self : consumer).

Lemma expand_ok r key template text w :
  str_format E template (dict_at r w) = Ok text →
  expand E r key template w = (Ok tt, (setitem r key (VStr text) w).2).
Proof. intros H. unfold expand, eval, mbind, M_bind. by rewrite H. Qed.

Lemma schedule_ok k src t rest od ld w :
  w_releases w !! k = Some src →
  tmp_candidates E = t :: rest → exists_b t w = false → parent_ok t w = true →
  str_format E (output_dir self) (<["tmp_dir" := VStr t]> (dict_at src w)) = Ok od →
  str_format E (log_dir self)
    (<["output_dir" := VStr od]> (<["tmp_dir" := VStr t]> (dict_at src w))) = Ok ld →
  let r := fresh (dom (w_heap w)) in
  let w' := (schedule E self k w).2 in
  (schedule E self k w).1 = Ok tt
  ∧ w_threads w' = (w_threads w ++ [r])%list
  ∧ dict_at r w'
    = <["log_dir" := VStr ld]>
        (<["output_dir" := VStr od]> (<["tmp_dir" := VStr t]> (dict_at src w)))
  ∧ w_dirs w' = {[t]} ∪ w_dirs w
  ∧ w_files w' = w_files w
  ∧ w_calls w' = w_calls w
  ∧ w_log w' = w_log w.
Proof.
  intros Hrel Hc He Hp Hod Hld r w'. subst w'.
  unfold schedule.
  assert (Hcopy : deepcopy_release k w
                  = (Ok r, set_heap (<[r := dict_at src w]> (w_heap w)) w)).
  { unfold deepcopy_release. by rewrite Hrel. }
  rewrite (bind_ok _ _ _ _ _ Hcopy).
  erewrite bind_ok; [| by apply (mkdtemp_first _ t rest)].
  step_pure.
  erewrite bind_ok.
  2: { apply expand_ok.
       rewrite dict_at_set_heap_eq, dict_at_set_fs, dict_at_set_heap_eq.
       exact Hod. }
  erewrite bind_ok.
  2: { apply expand_ok. unfold setitem. simpl snd.
       rewrite !dict_at_set_heap_eq, dict_at_set_fs, dict_at_set_heap_eq.
       exact Hld. }
  unfold callInThread, setitem. simpl.
  split_and!; try reflexivity.
  unfold dict_at at 1. simpl. rewrite lookup_insert_eq. simpl.
  by rewrite !dict_at_set_heap_eq, dict_at_set_fs, dict_at_set_heap_eq.
Qed.

End Schedule.

(** X3.  An accepted event for a configured release, with the first
    proposed scratch name free and both templates formatting, makes
    [consume] return having created the scratch directory and scheduled
    one run on a new dict: the items of the release, then [tmp_dir], then
    [output_dir] formatted over those, then [log_dir] formatted over
    those and the expanded [output_dir].  No file is written and no
    command run. *)
Theorem consume_schedules_a_copy (E : Env) (self : consumer) (msg : event)
        (k : option string) (src : loc) (t : string) (rest : list string)
        (od ld : string) (w : world) :
  lookup_key msg = Some k →
  w_releases w !! k = Some src →
  tmp_candidates E = t :: rest → exists_b t w = false → parent_ok t w = true →
  str_format E (output_dir self) (<["tmp_dir" := VStr t]> (dict_at src w)) = Ok od →
  str_format E (log_dir self)
    (<["output_dir" := VStr od]> (<["tmp_dir" := VStr t]> (dict_at src w))) = Ok ld →
  (consume E self msg w).1 = Ok tt
  ∧ w_threads (consume E self msg w).2
    = (w_threads w ++ [fresh (dom (w_heap w))])%list
  ∧ dict_at (fresh (dom (w_heap w))) (consume E self msg w).2
    = <["log_dir" := VStr ld]>
        (<["output_dir" := VStr od]> (<["tmp_dir" := VStr t]> (dict_at src w)))
  ∧ w_dirs (consume E self msg w).2 = {[t]} ∪ w_dirs w
  ∧ w_files (consume E self msg w).2 = w_files w
  ∧ w_calls (consume E self msg w).2 = w_calls w.
Proof.
  intros Hk Hrel Hc He Hp Hod Hld.
  destruct (consume_reaches_lookup E self msg k w Hk) as [l ->].
  destruct (schedule_ok E self k src t rest od ld (logged l w)
              Hrel Hc He Hp Hod Hld) as (H1 & H2 & H3 & H4 & H5 & H6 & _).
  by split_and!.
Qed.

Lemma consume_schedules_a_copy_witness :
  (consume E_ok hub rawhide_done boot).1 = Ok tt
  ∧ w_threads (consume E_ok hub rawhide_done boot).2 = [2%positive]
  ∧ dict_at 2%positive (consume E_ok hub rawhide_done boot).2 !! "log_dir"
    = Some (VStr "/srv/fedora-atomic/logs/rawhide/x86_64/docker-host")
  ∧ w_dirs (consume E_ok hub rawhide_done boot).2 = {["/tmp/tmpq3XaW1"]} ∪ w_dirs boot.
Proof.
  destruct (consume_schedules_a_copy E_ok hub rawhide_done (Some "rawhide")
              1%positive "/tmp/tmpq3XaW1" ["/tmp/tmpLw09ze"]
              "/srv/fedora-atomic/rawhide/x86_64/docker-host"
              "/srv/fedora-atomic/logs/rawhide/x86_64/docker-host" boot)
    as (H1 & H2 & H3 & H4 & _); try (vm_compute; reflexivity).
  split_and!; [exact H1 | exact H2 | | exact H4].
  replace 2%positive with (fresh (dom (w_heap boot))) by (vm_compute; reflexivity).
  rewrite H3. vm_compute. reflexivity.
Defined.

Lemma mkdtemp_store_threads names e w w1 :
  mkdtemp_from names w = (Raise e, w1) → w_threads w1 = w_threads w.
Proof.
  intros H. pose proof (keeps_store_mkdtemp names w) as (_ & _ & Ht).
  by rewrite H in Ht.
Qed.

Section ScheduleFailures.

Context (E : Env) (self : consumer).

Lemma expand_raises r key template e w :
  str_format E template (dict_at r w) = Raise e →
  expand E r key template w = (Raise e, w).
Proof. intros H. unfold expand, eval, mbind, M_bind. by rewrite H. Qed.

Lemma schedule_format_error k src t rest e w :
  w_releases w !! k = Some src →
  tmp_candidates E = t :: rest → exists_b t w = false → parent_ok t w = true →
  let d1 := <["tmp_dir" := VStr t]> (dict_at src w) in
  (str_format E (output_dir self) d1 = Raise e
   ∨ ∃ od, str_format E (output_dir self) d1 = Ok od
           ∧ str_format E (log_dir self) (<["output_dir" := VStr od]> d1) = Raise e) →
  (schedule E self k w).1 = Raise e
  ∧ w_dirs (schedule E self k w).2 = {[t]} ∪ w_dirs w
  ∧ w_threads (schedule E self k w).2 = w_threads w.
Proof.
  intros Hrel Hc He Hp d1 Hfmt. unfold schedule.
  assert (Hcopy : deepcopy_release k w
                  = (Ok (fresh (dom (w_heap w))),
                     set_heap (<[fresh (dom (w_heap w)) := dict_at src w]> (w_heap w)) w)).
  { unfold deepcopy_release. by rewrite Hrel. }
  rewrite (bind_ok _ _ _ _ _ Hcopy).
  erewrite bind_ok; [| by apply (mkdtemp_first _ t rest)].
  step_pure.
  destruct Hfmt as [Hod | (od & Hod & Hld)].
  - erewrite bind_raise.
    2: { apply expand_raises.
         rewrite dict_at_set_heap_eq, dict_at_set_fs, dict_at_set_heap_eq.
         exact Hod. }
    done.
  - erewrite bind_ok.
    2: { apply expand_ok.
         rewrite dict_at_set_heap_eq, dict_at_set_fs, dict_at_set_heap_eq.
         exact Hod. }
    erewrite bind_raise.
    2: { apply expand_raises. unfold setitem. simpl snd.
         rewrite !dict_at_set_heap_eq, dict_at_set_fs, dict_at_set_heap_eq.
         exact Hld. }
    done.
Qed.

Lemma schedule_scratch_dir_is_new k r w :
  r ∈ w_threads (schedule E self k w).2 → r ∉ w_threads w →
  ∃ t, dict_at r (schedule E self k w).2 !! "tmp_dir" = Some (VStr t)
       ∧ exists_b t w = false
       ∧ t ∈ w_dirs (schedule E self k w).2.
Proof.
  pattern (schedule E self k w).
  match goal with |- ?P0 _ => set (P := P0) end.
  assert (Hquiet : ∀ x : result unit * world, w_threads x.2 = w_threads w → P x).
  { intros x Hx. subst P. cbv beta. rewrite Hx. intros; contradiction. }
  unfold schedule, deepcopy_release. unfold mbind at 1, M_bind at 1.
  destruct (w_releases w !! k) as [src|]; [| by apply Hquiet].
  set (r0 := fresh (dom (w_heap w))).
  set (w1 := set_heap (<[r0 := dict_at src w]> (w_heap w)) w).
  unfold mbind at 1, M_bind at 1.
  destruct (mkdtemp_from (tmp_candidates E) w1) as [[t|e] w2] eqn:Htmp;
    [| apply mkdtemp_store_threads in Htmp; by apply Hquiet].
  apply mkdtemp_Ok_inv in Htmp as (_ & Hfree & ->).
  step_pure.
  match goal with
  | |- context [(expand E ?r0' ?key ?tmpl ≫= ?f) ?w0] =>
      destruct (str_format E tmpl (dict_at r0' w0)) as [od|e] eqn:Hod;
      [ rewrite (bind_ok _ f _ _ _ (expand_ok E r0' key tmpl od w0 Hod))
      | rewrite (bind_raise _ f _ _ _ (expand_raises r0' key tmpl e w0 Hod));
        by apply Hquiet ]
  end.
  match goal with
  | |- context [(expand E ?r0' ?key ?tmpl ≫= ?f) ?w0] =>
      destruct (str_format E tmpl (dict_at r0' w0)) as [ld|e] eqn:Hld;
      [ rewrite (bind_ok _ f _ _ _ (expand_ok E r0' key tmpl ld w0 Hld))
      | rewrite (bind_raise _ f _ _ _ (expand_raises r0' key tmpl e w0 Hld));
        by apply Hquiet ]
  end.
  match goal with
  | |- P (callInThread r0 ?W) => set (wf := (callInThread r0 W).2)
  end.
  assert (Ht : w_threads wf = (w_threads w ++ [r0])%list) by reflexivity.
  assert (Hd : w_dirs wf = {[t]} ∪ w_dirs w) by reflexivity.
  assert (Hdict : dict_at r0 wf !! "tmp_dir" = Some (VStr t)).
  { subst wf. unfold callInThread, setitem. unfold dict_at at 1. simpl.
    rewrite lookup_insert_eq. simpl.
    rewrite lookup_insert_ne by done.
    rewrite dict_at_set_heap_eq. rewrite lookup_insert_ne by done.
    rewrite dict_at_set_heap_eq. by rewrite lookup_insert_eq. }
  subst P. cbv beta. fold wf. rewrite Ht, Hd.
  intros Hin Hnew. apply elem_of_app in Hin as [Hin | Hin]; [contradiction |].
  apply list_elem_of_singleton in Hin as ->.
  exists t. split_and!; [exact Hdict | exact Hfree | set_solver].
Qed.

End ScheduleFailures.

(** X4.  [consume] makes the scratch directory before it expands the
    templates: when [output_dir] or [log_dir] fails to format (a field the
    release does not have, say), [consume] raises that error, no run is
    scheduled, and the scratch directory stays behind. *)
Theorem consume_leaves_scratch_dir_when_format_fails (E : Env) (self : consumer)
        (msg : event) (k : option string) (src : loc) (t : string)
        (rest : list string) (e : exn) (w : world) :
  lookup_key msg = Some k →
  w_releases w !! k = Some src →
  tmp_candidates E = t :: rest → exists_b t w = false → parent_ok t w = true →
  (str_format E (output_dir self) (<["tmp_dir" := VStr t]> (dict_at src w)) = Raise e
   ∨ ∃ od, str_format E (output_dir self) (<["tmp_dir" := VStr t]> (dict_at src w))
           = Ok od
           ∧ str_format E (log_dir self)
               (<["output_dir" := VStr od]> (<["tmp_dir" := VStr t]> (dict_at src w)))
             = Raise e) →
  (consume E self msg w).1 = Raise e
  ∧ w_dirs (consume E self msg w).2 = {[t]} ∪ w_dirs w
  ∧ w_threads (consume E self msg w).2 = w_threads w.
Proof.
  intros Hk Hrel Hc He Hp Hfmt.
  destruct (consume_reaches_lookup E self msg k w Hk) as [l ->].
  apply (schedule_format_error E self k src t rest e (logged l w) Hrel Hc He Hp Hfmt).
Qed.

Lemma consume_leaves_scratch_dir_when_format_fails_witness :
  let self := Consumer (git_repo hub) "/srv/{flavour}/{tree}" (log_dir hub) in
  (consume E_ok self rawhide_done boot).1 = Raise (KeyError (Some "flavour"))
  ∧ w_dirs (consume E_ok self rawhide_done boot).2 = {["/tmp/tmpq3XaW1"]} ∪ w_dirs boot
  ∧ w_threads (consume E_ok self rawhide_done boot).2 = w_threads boot.
Proof.
  intros self.
  apply (consume_leaves_scratch_dir_when_format_fails E_ok self rawhide_done
           (Some "rawhide") 1%positive "/tmp/tmpq3XaW1" ["/tmp/tmpLw09ze"]
           (KeyError (Some "flavour")) boot);
    try (vm_compute; reflexivity).
  left. vm_compute. reflexivity.
Defined.

(** X5.  The scratch directory of a run that [consume] schedules is new:
    the path in the run's [tmp_dir] was neither a directory nor a file
    before the event, and is a directory after it.  So it differs from the
    scratch directory of every run whose directory is still there. *)
Theorem scheduled_scratch_dir_is_new (E : Env) (self : consumer) (msg : event)
        (r : loc) (w : world) :
  r ∈ w_threads (consume E self msg w).2 → r ∉ w_threads w →
  ∃ t, dict_at r (consume E self msg w).2 !! "tmp_dir" = Some (VStr t)
       ∧ (t ∉ w_dirs w) ∧ w_files w !! t = None
       ∧ t ∈ w_dirs (consume E self msg w).2.
Proof.
  destruct (lookup_key msg) as [k|] eqn:Hk.
  - destruct (consume_reaches_lookup E self msg k w Hk) as [l ->].
    intros Hin Hnew.
    destruct (schedule_scratch_dir_is_new E self k r (logged l w) Hin Hnew)
      as (t & Hdict & Hfree & Hdir).
    exists t. split_and!; [exact Hdict | | | exact Hdir].
    + unfold exists_b in Hfree. apply orb_false_iff in Hfree as [Hfree _].
      by apply bool_decide_eq_false_1 in Hfree.
    + unfold exists_b in Hfree. apply orb_false_iff in Hfree as [_ Hfree].
      apply bool_decide_eq_false_1 in Hfree.
      change (w_files (logged l w)) with (w_files w) in Hfree.
      destruct (w_files w !! t); [| done]. exfalso. apply Hfree. by eexists.
  - destruct (consume_stops_early E self msg w Hk) as [l ->].
    intros; contradiction.
Qed.

Lemma scheduled_scratch_dir_is_new_witness :
  ∃ t, dict_at 2%positive (consume E_ok hub rawhide_done boot).2 !! "tmp_dir"
       = Some (VStr t)
       ∧ (t ∉ w_dirs boot) ∧ w_files boot !! t = None
       ∧ t ∈ w_dirs (consume E_ok hub rawhide_done boot).2.
Proof.
  apply (scheduled_scratch_dir_is_new E_ok hub rawhide_done 2%positive boot).
  - present_by_computation.
  - absent_by_computation.
Defined.

(** ** The process runner and the chroot commands *)

Section Runner.

Context (E : Env) (self : consumer).

Lemma call_not_started argv w :
  argv ≠ [] → popen E argv (w_dirs w) (w_files w) = None →
  call E (VStr <$> argv) w
  = (Raise (OSError ENOENT (hd "" argv)),
     add_call argv (add_log (INFO, [LStr "Running %s"; LArgv (VStr <$> argv)]) w)).
Proof.
  intros Hne Hp. unfold call, mbind, M_bind, Popen, log.
  rewrite argv_of_strs. destruct argv as [|a l]; [done|].
  simpl w_dirs. simpl w_files. by rewrite Hp.
Qed.

Lemma call_not_strings cmd w :
  argv_of cmd = None →
  call E cmd w = (Raise TypeError, add_log (INFO, [LStr "Running %s"; LArgv cmd]) w).
Proof. intros H. unfold call, mbind, M_bind, Popen, log. by rewrite H. Qed.

End Runner.

(** X6.  Once the process has come back, the log of [call] is the record
    of the command, then the standard error if there is any, then the
    return code if it is not zero, in that order and nothing else; and the
    filesystem is the one the process left. *)
Theorem call_logs_in_order (E : Env) (argv : list string) (p : proc) (w : world) :
  argv ≠ [] →
  popen E argv (w_dirs w) (w_files w) = Some p →
  w_log (call E (VStr <$> argv) w).2
  = (w_log w
       ++ [(INFO, [LStr "Running %s"; LArgv (VStr <$> argv)])]
       ++ (if String.eqb (p_err p) "" then [] else [(ERROR, [LStr (p_err p)])])
       ++ (if p_returncode p =? 0 then []
           else [(ERROR, [LStr ("returncode = " +:+ pretty (p_returncode p))])]))%list
  ∧ w_dirs (call E (VStr <$> argv) w).2 = p_dirs p
  ∧ w_files (call E (VStr <$> argv) w).2 = p_files p.
Proof.
  intros Hne Hp. rewrite (call_started E argv p w Hne Hp). unfold after_call.
  destruct (String.eqb (p_err p) ""), (p_returncode p =? 0); simpl;
    rewrite <- ?app_assoc; done.
Qed.

Lemma call_logs_in_order_witness :
  let argv := clone_argv hub "master" "/tmp/x" in
  w_log (call E_offline (VStr <$> argv) boot).2
  = [(INFO, [LStr "Running %s"; LArgv (VStr <$> argv)]);
     (ERROR, [LStr "fatal: unable to access the repository"]);
     (ERROR, [LStr "returncode = 128"])].
Proof.
  intros argv.
  destruct (call_logs_in_order E_offline argv
              (Proc "" "fatal: unable to access the repository" 128
                    (w_dirs boot) (w_files boot) 1) boot) as (Hlog & _);
    [done | reflexivity |].
  exact Hlog.
Defined.

(** X7.  When [git] cannot be started at all, the exception of [Popen]
    leaves [update_configs] and [compose]: the run ends at step 1, the
    clone is the only command that was tried, and the filesystem, scratch
    directory included, is what it was. *)
Theorem compose_stops_when_git_cannot_start (E : Env) (self : consumer)
        (r : loc) (t b : string) (w : world) :
  dict_at r w !! "tmp_dir" = Some (VStr t) →
  dict_at r w !! "git_branch" = Some (VStr b) →
  let argv := clone_argv self b (Path.join t (Path.basename (git_repo self))) in
  popen E argv (w_dirs w) (w_files w) = None →
  (compose E self r w).1 = Raise (OSError ENOENT "git")
  ∧ w_calls (compose E self r w).2 = (w_calls w ++ [argv])%list
  ∧ w_dirs (compose E self r w).2 = w_dirs w
  ∧ w_files (compose E self r w).2 = w_files w.
Proof.
  intros Ht Hb argv Hp.
  assert (Hrun : update_configs E self r w
                 = (Raise (OSError ENOENT "git"),
                    add_call argv
                      (add_log (INFO, [LStr "Running %s"; LArgv (VStr <$> argv)])
                         (setitem r "git_dir"
                            (VStr (Path.join t (Path.basename (git_repo self)))) w).2))).
  { unfold update_configs. step_get Ht. step_pure. step_pure.
    assert (Hb' : dict_at r (setitem r "git_dir"
                    (VStr (Path.join t (Path.basename (git_repo self)))) w).2
                  !! "git_branch" = Some (VStr b)).
    { rewrite dict_at_setitem. by rewrite lookup_insert_ne. }
    step_get Hb'.
    change [VStr "git"; VStr "clone"; VStr "-b"; VStr b; VStr (git_repo self);
            VStr (Path.join t (Path.basename (git_repo self)))]
      with (VStr <$> argv).
    erewrite bind_raise; [reflexivity |].
    by apply call_not_started. }
  unfold compose. rewrite (bind_raise _ _ _ _ _ Hrun). done.
Qed.

Lemma compose_stops_when_git_cannot_start_witness :
  let E := mk_env (λ argv ds fs, match argv with
                                 | "git" :: _ => None
                                 | _ => run_ok argv ds fs
                                 end) in
  (compose E hub 2%positive (accepted E)).1 = Raise (OSError ENOENT "git")
  ∧ w_dirs (compose E hub 2%positive (accepted E)).2 = w_dirs (accepted E).
Proof.
  intros E.
  destruct (compose_stops_when_git_cannot_start E hub 2%positive
              "/tmp/tmpq3XaW1" "master" (accepted E)) as (H1 & _ & H3 & _).
  - vm_compute. reflexivity.
  - vm_compute. reflexivity.
  - reflexivity.
  - split; [exact H1 | exact H3].
Defined.

(** X8.  [mock_cmd] takes its command as [isinstance(cmd, list) and cmd or
    [cmd]]: an empty list is false, so it is wrapped like a string.  The
    argument vector then holds a list, [Popen] raises [TypeError], and no
    command is run. *)
Theorem mock_cmd_empty_list_raises (E : Env) (r : loc) (m md : string) (w : world) :
  dict_at r w !! "mock" = Some (VStr m) →
  dict_at r w !! "mock_dir" = Some (VStr md) →
  (mock_cmd E r (VList []) w).1 = Raise TypeError
  ∧ w_calls (mock_cmd E r (VList []) w).2 = w_calls w
  ∧ w_dirs (mock_cmd E r (VList []) w).2 = w_dirs w
  ∧ w_files (mock_cmd E r (VList []) w).2 = w_files w.
Proof.
  intros Hm Hmd. unfold mock_cmd. step_get Hm. step_get Hmd. step_pure.
  erewrite bind_raise; [| by apply call_not_strings]. done.
Qed.

Lemma mock_cmd_empty_list_raises_witness :
  (mock_cmd E_ok 2%positive (VList [])
     (at_init_mock E_ok 2%positive (accepted E_ok))).1 = Raise TypeError.
Proof.
  apply (mock_cmd_empty_list_raises E_ok 2%positive "fedora-rawhide-x86_64"
           "/tmp/tmpq3XaW1/mock" (at_init_mock E_ok 2%positive (accepted E_ok)));
    vm_compute; reflexivity.
Defined.

(** X9.  [init_mock] does not look at the outcome of the [mock] command:
    once the process has come back, with whatever return code, it logs
    that the chroot was initialised (or updated) and returns. *)
Theorem init_mock_reports_success_whatever_the_code (E : Env) (r : loc)
        (m md : string) (p : proc) (w : world) :
  dict_at r w !! "mock" = Some (VStr m) →
  dict_at r w !! "mock_dir" = Some (VStr md) →
  let present := bool_decide ("/var/lib/mock/" +:+ m ∈ w_dirs w) in
  popen E (mock_argv m md [if present then "--update" else "--init"])
        (w_dirs w) (w_files w) = Some p →
  (init_mock E r w).1 = Ok tt
  ∧ last (w_log (init_mock E r w).2)
    = Some (INFO, [LStr (if present then "mock chroot updated"
                         else "mock chroot initialized")]).
Proof.
  intros Hm Hmd present Hp. unfold init_mock. step_get Hm. step_pure.
  change (to_text E (VStr m)) with m. fold present.
  destruct present; cbv beta iota delta [negb].
  - erewrite bind_ok;
      [| by apply (mock_cmd_started E r _ ["--update"] m md p)].
    unfold log. simpl. split; [done | apply last_snoc].
  - erewrite bind_ok;
      [| by apply (mock_cmd_started E r _ ["--init"] m md p)].
    unfold log. simpl. split; [done | apply last_snoc].
Qed.

Lemma init_mock_reports_success_whatever_the_code_witness :
  let E := mk_env (λ argv ds fs, match argv with
                                 | "/usr/bin/mock" :: _ =>
                                     Some (Proc "" "ERROR: could not init" 30 ds fs 2)
                                 | _ => run_ok argv ds fs
                                 end) in
  let w := at_init_mock E 2%positive (accepted E) in
  (init_mock E 2%positive w).1 = Ok tt
  ∧ last (w_log (init_mock E 2%positive w).2)
    = Some (INFO, [LStr "mock chroot initialized"]).
Proof.
  intros E w.
  apply (init_mock_reports_success_whatever_the_code E 2%positive
           "fedora-rawhide-x86_64" "/tmp/tmpq3XaW1/mock"
           (Proc "" "ERROR: could not init" 30 (w_dirs w) (w_files w) 2) w);
    vm_compute; reflexivity.
Defined.

(** X10.  Once the summary command has come back, with whatever return
    code, [update_ostree_summary] returns the path of the summary file,
    [summary] joined under the expanded output directory. *)
Theorem update_ostree_summary_returns_the_path (E : Env) (r : loc)
        (od m md : string) (name : pyval) (p : proc) (w : world) :
  dict_at r w !! "name" = Some name →
  dict_at r w !! "output_dir" = Some (VStr od) →
  dict_at r w !! "mock" = Some (VStr m) →
  dict_at r w !! "mock_dir" = Some (VStr md) →
  popen E (mock_argv m md ["--shell"; summary_cmd od]) (w_dirs w) (w_files w)
  = Some p →
  (update_ostree_summary E r w).1 = Ok (Path.join od "summary").
Proof.
  intros Hname Hod Hm Hmd Hp. unfold update_ostree_summary.
  step_get Hname. step_pure. step_get Hod.
  erewrite bind_ok;
    [| unfold mock_shell;
       by apply (mock_cmd_started E r _ ["--shell"; summary_cmd od] m md p)].
  assert (Hod' : ∀ x y, dict_at r (add_log x (after_call y p
                   (add_log (INFO, [LStr "Updating the ostree summary for %s"; LVal name]) w)))
                 !! "output_dir" = Some (VStr od)).
  { intros x y. change (dict_at r (add_log x ?w0)) with (dict_at r w0).
    rewrite dict_at_after_call. exact Hod. }
  step_get (Hod' (DEBUG, [LStr (p_out p)])
                 (mock_argv m md ["--shell"; summary_cmd od])).
  reflexivity.
Qed.

Lemma update_ostree_summary_returns_the_path_witness :
  let E := mk_env (λ argv ds fs, match argv with
                                 | "/usr/bin/mock" :: _ =>
                                     Some (Proc "" "error: no such repo" 1 ds fs 2)
                                 | _ => run_ok argv ds fs
                                 end) in
  (update_ostree_summary E 2%positive
     (at_ostree_compose E 2%positive (accepted E))).1
  = Ok "/srv/fedora-atomic/rawhide/x86_64/docker-host/summary".
Proof.
  intros E.
  apply (update_ostree_summary_returns_the_path E 2%positive
           "/srv/fedora-atomic/rawhide/x86_64/docker-host"
           "fedora-rawhide-x86_64" "/tmp/tmpq3XaW1/mock" (VStr "rawhide")
           (Proc "" "error: no such repo" 1
                 (w_dirs (at_ostree_compose E 2%positive (accepted E)))
                 (w_files (at_ostree_compose E 2%positive (accepted E))) 2)
           (at_ostree_compose E 2%positive (accepted E)));
    vm_compute; reflexivity.
Defined.

(** ** Cleaning up *)

Lemma rmtree_tree_removed t w w' :
  rmtree t w = (Ok tt, w') → tree_removed t w w'.
Proof.
  unfold rmtree. intros Hrm. repeat case_match; simplify_eq.
  split; intros p Hp;
    change (w_dirs (set_fs ?a ?b ?c)) with a;
    change (w_files (set_fs ?a ?b ?c)) with b.
  - split.
    + rewrite elem_of_filter. intros [Hb _]. congruence.
    + apply map_lookup_filter_None. right. intros x _. simpl. congruence.
  - split.
    + rewrite elem_of_filter. tauto.
    + destruct (w_files w !! p) as [x|] eqn:Hx.
      * by apply map_lookup_filter_Some_2.
      * apply map_lookup_filter_None. by left.
Qed.

Lemma below_refl t : Path.below t t = true.
Proof. unfold Path.below. by rewrite String.eqb_refl. Qed.

Lemma rmtree_only_fs t w :
  w_heap (rmtree t w).2 = w_heap w ∧ w_log (rmtree t w).2 = w_log w
  ∧ w_calls (rmtree t w).2 = w_calls w ∧ w_threads (rmtree t w).2 = w_threads w
  ∧ w_releases (rmtree t w).2 = w_releases w.
Proof. unfold rmtree. by repeat case_match. Qed.

Lemma cleanup_tree_removed r t w w' :
  dict_at r w !! "tmp_dir" = Some (VStr t) →
  cleanup r w = (Ok tt, w') →
  tree_removed t w w'
  ∧ w_heap w' = w_heap w ∧ w_log w' = w_log w ∧ w_calls w' = w_calls w.
Proof.
  intros Ht. unfold cleanup. step_get Ht. step_pure. intros Hrm.
  split; [by apply rmtree_tree_removed |].
  destruct (rmtree_only_fs t w) as (Hh & Hl & Hc & _).
  rewrite Hrm in Hh, Hl, Hc. done.
Qed.

(** X11.  When [cleanup] returns, nothing is left of the tree at
    [release['tmp_dir']], neither directory nor file, and every path
    outside that tree is what it was; the store, the log and the command
    trace are untouched. *)
Theorem cleanup_removes_the_tree_and_nothing_else (r : loc) (t : string)
        (w w' : world) :
  dict_at r w !! "tmp_dir" = Some (VStr t) →
  cleanup r w = (Ok tt, w') →
  tree_removed t w w'
  ∧ w_heap w' = w_heap w ∧ w_log w' = w_log w ∧ w_calls w' = w_calls w.
Proof. apply cleanup_tree_removed. Qed.

Lemma cleanup_removes_the_tree_and_nothing_else_witness :
  let w := (before_cleanup E_ok hub 2%positive (accepted E_ok)).2 in
  tree_removed "/tmp/tmpq3XaW1" w (cleanup 2%positive w).2.
Proof.
  intros w.
  apply (cleanup_removes_the_tree_and_nothing_else 2%positive "/tmp/tmpq3XaW1"
           w (cleanup 2%positive w).2).
  - vm_compute. reflexivity.
  - apply run_eq. vm_compute. reflexivity.
Defined.

(** X12.  [cleanup] calls [shutil.rmtree] without [ignore_errors]: after a
    [cleanup] that returned, a second one on the same release raises
    [OSError], because the directory is gone. *)
Theorem cleanup_twice_raises (r : loc) (w w' : world) :
  cleanup r w = (Ok tt, w') →
  ∃ t, dict_at r w !! "tmp_dir" = Some (VStr t)
       ∧ cleanup r w' = (Raise (OSError ENOENT t), w').
Proof.
  intros Hrun. pose proof Hrun as Hfirst. unfold cleanup in Hrun.
  apply bind_inv_ok in Hrun as (v & w1 & Hget & Hrun).
  unfold getitem in Hget. destruct (dict_at r w !! "tmp_dir") as [v'|] eqn:Ht; [| done].
  injection Hget as Hv Hw. subst v' w1.
  apply bind_inv_ok in Hrun as (t & w2 & Hstr & Hrm).
  destruct v as [t'| | |]; try done. injection Hstr as Hv Hw. subst t' w2.
  exists t. split; [done |].
  destruct (cleanup_tree_removed r t w w' Ht Hfirst)
    as ((Hgone & _) & Hh & _).
  destruct (Hgone t (below_refl t)) as [Hd Hf].
  assert (Ht' : dict_at r w' !! "tmp_dir" = Some (VStr t)).
  { unfold dict_at in *. by rewrite Hh. }
  unfold cleanup. step_get Ht'. step_pure.
  unfold rmtree. rewrite Hf. by rewrite bool_decide_eq_false_2.
Qed.

Lemma cleanup_twice_raises_witness :
  let w := (before_cleanup E_ok hub 2%positive (accepted E_ok)).2 in
  ∃ t, dict_at 2%positive w !! "tmp_dir" = Some (VStr t)
       ∧ cleanup 2%positive (cleanup 2%positive w).2
         = (Raise (OSError ENOENT t), (cleanup 2%positive w).2).
Proof.
  intros w. apply (cleanup_twice_raises 2%positive w (cleanup 2%positive w).2).
  apply run_eq. vm_compute. reflexivity.
Defined.

(** ** The directories of a run *)

Lemma dict_at_keeps {A : Type} (m : M A) r w :
  keeps same_store m → dict_at r (m w).2 = dict_at r w.
Proof. intros Hm. destruct (Hm w) as [Hh _]. unfold dict_at. by rewrite Hh. Qed.

Lemma join_relative t b :
  t ≠ "" → Path.startswith "/" b = false →
  Path.join t b = (if Path.endswith_slash t then t else t +:+ "/") +:+ b.
Proof.
  intros Ht Hb. unfold Path.join. rewrite Hb.
  apply String.eqb_neq in Ht. rewrite Ht. simpl.
  destruct (Path.endswith_slash t); [done | by rewrite string_app_assoc].
Qed.

(** X13.  [update_configs] records [git_dir] as the base name of the
    repository URL joined under [tmp_dir], and [generate_mock_config]
    records [mock_dir] as [mock] joined under [tmp_dir], whether or not
    the step goes on to succeed.  Each is spelled as the scratch
    directory, one separator, and a name with no separator in it.  (The
    base name of a URL that ends in a slash is empty, and that of a URL
    that ends in [..] is [..]: the name is a spelling, and the clone
    directory it spells may be the scratch directory itself or its
    parent.) *)
Theorem run_directories_are_named_under_the_scratch_directory (E : Env)
        (self : consumer) (r : loc) (t : string) (w : world) :
  dict_at r w !! "tmp_dir" = Some (VStr t) →
  t ≠ "" →
  let name := Path.basename (git_repo self) in
  let stem := if Path.endswith_slash t then t else t +:+ "/" in
  dict_at r (update_configs E self r w).2 !! "git_dir"
  = Some (VStr (stem +:+ name))
  ∧ dict_at r (generate_mock_config E r w).2 !! "mock_dir"
    = Some (VStr (stem +:+ "mock"))
  ∧ noslash name = true.
Proof.
  intros Ht Hne name stem. split_and!.
  - unfold update_configs. step_get Ht. step_pure. step_pure.
    rewrite dict_at_keeps
      by keeps_with ltac:(first [store_prims | apply keeps_store_call]).
    rewrite dict_at_set_heap_eq, lookup_insert_eq.
    by rewrite (join_relative t _ Hne (basename_not_absolute (git_repo self))).
  - unfold generate_mock_config. step_get Ht. step_pure. step_pure.
    rewrite dict_at_keeps by keeps_with store_prims.
    rewrite dict_at_set_heap_eq, lookup_insert_eq.
    by rewrite (join_relative t "mock" Hne eq_refl).
  - apply cut_snd_noslash.
Qed.

Lemma run_directories_are_named_under_the_scratch_directory_witness :
  dict_at 2%positive (update_configs E_offline hub 2%positive (accepted E_offline)).2
    !! "git_dir" = Some (VStr "/tmp/tmpq3XaW1/fedora-atomic.git")
  ∧ dict_at 2%positive (generate_mock_config E_offline 2%positive (accepted E_offline)).2
    !! "mock_dir" = Some (VStr "/tmp/tmpq3XaW1/mock").
Proof.
  destruct (run_directories_are_named_under_the_scratch_directory E_offline hub
              2%positive "/tmp/tmpq3XaW1" (accepted E_offline))
    as (H1 & H2 & _); [vm_compute; reflexivity | done |].
  split; [exact H1 | exact H2].
Defined.

(** X14.  When [compose] returns, nothing is left of the run's scratch
    tree: no directory and no file at or below [tmp_dir], and so neither
    the working clone nor the chroot config directory. *)
Theorem compose_leaves_nothing_of_the_scratch_tree (E : Env) (self : consumer)
        (r : loc) (t : string) (w w' : world) :
  dict_at r w !! "tmp_dir" = Some (VStr t) →
  t ≠ "" →
  compose E self r w = (Ok tt, w') →
  (∀ p, Path.below t p = true → (p ∉ w_dirs w') ∧ w_files w' !! p = None)
  ∧ (Path.join t (Path.basename (git_repo self)) ∉ w_dirs w')
  ∧ (Path.join t "mock" ∉ w_dirs w').
Proof.
  intros Ht Hne Hrun. rewrite compose_split in Hrun.
  apply bind_inv_ok in Hrun as (a & w1 & Hsteps & Hclean).
  pose proof (keeps_writes_before_cleanup E self r w) as [(_ & _ & Hkeys) _].
  rewrite Hsteps in Hkeys. simpl in Hkeys.
  assert (Ht1 : dict_at r w1 !! "tmp_dir" = Some (VStr t)).
  { rewrite Hkeys; [exact Ht |]. unfold run_keys. intros [?|?]; discriminate. }
  destruct (cleanup_tree_removed r t w1 w' Ht1 Hclean)
    as ((Hgone & _) & _).
  split_and!; [exact Hgone | |].
  - apply Hgone. apply join_below; [done | apply basename_not_absolute].
  - apply Hgone. by apply join_below.
Qed.

Lemma compose_leaves_nothing_of_the_scratch_tree_witness :
  (Path.join "/tmp/tmpq3XaW1" (Path.basename (git_repo hub))
     ∉ w_dirs (compose E_ok hub 2%positive (accepted E_ok)).2)
  ∧ (Path.join "/tmp/tmpq3XaW1" "mock"
       ∉ w_dirs (compose E_ok hub 2%positive (accepted E_ok)).2).
Proof.
  destruct (compose_leaves_nothing_of_the_scratch_tree E_ok hub 2%positive
              "/tmp/tmpq3XaW1" (accepted E_ok)
              (compose E_ok hub 2%positive (accepted E_ok)).2)
    as (_ & H2 & H3).
  - vm_compute. reflexivity.
  - done.
  - apply run_eq. vm_compute. reflexivity.
  - split; [exact H2 | exact H3].
Defined.

(** ** The commands of a run *)

#[export] Instance started_only_preorder P : PreOrder (started_only P).
Proof.
  split.
  - intros w. exists []. by rewrite app_nil_r.
  - intros w1 w2 w3 (l1 & H1 & F1) (l2 & H2 & F2). exists (l1 ++ l2)%list.
    split; [by rewrite H2, H1, app_assoc | by apply Forall_app].
Qed.










Section Started.

Context (E : Env) (self : consumer) (P : list string → Prop).



End Started.




Section StartedSteps.

Context (E : Env) (self : consumer).








End StartedSteps.


#[export] Instance only_new_dirs_preorder : PreOrder only_new_dirs.
Proof.
  split.
  - by intros w.
  - intros w1 w2 w3 (H1 & H2 & H3) (H4 & H5 & H6).
    split_and!; [set_solver | congruence..].
Qed.

Lemma keeps_dirs_log lv args : keeps only_new_dirs (log lv args).
Proof. by intros w. Qed.

Lemma keeps_dirs_setitem r k v : keeps only_new_dirs (setitem r k v).
Proof. by intros w. Qed.

Lemma keeps_dirs_mkdir p : keeps only_new_dirs (mkdir p).
Proof.
  intros w. unfold mkdir. repeat case_match; try done.
  simpl. split_and!; [set_solver | done..].
Qed.

Lemma keeps_dirs_mkdtemp names : keeps only_new_dirs (mkdtemp_from names).
Proof.
  induction names as [|name rest IH]; intros w; [done|].
  simpl. pose proof (keeps_dirs_mkdir name w) as Hm.
  destruct (mkdir name w) as [[[]|e] w1]; simpl in *; [done|].
  destruct e as [| | | |[] p| |]; try done.
  etrans; [exact Hm | apply IH].
Qed.

Lemma keeps_dirs_deepcopy repo : keeps only_new_dirs (deepcopy_release repo).
Proof. intros w. unfold deepcopy_release. by destruct (w_releases w !! repo). Qed.

Lemma keeps_dirs_callInThread r : keeps only_new_dirs (callInThread r).
Proof. by intros w. Qed.

(** X16.  [consume] itself starts no process and writes no file,
    whatever the message and however it ends: all it does to the
    filesystem is make the scratch directory.  The commands belong to the
    scheduled run. *)
Theorem consume_starts_no_command (E : Env) (self : consumer) (msg : event)
        (w : world) :
  only_new_dirs w (consume E self msg w).2.
Proof.
  revert w. change (keeps only_new_dirs (consume E self msg)).
  unfold consume, schedule, expand.
  keeps_with ltac:(first [ apply keeps_dirs_log | apply keeps_dirs_setitem
                         | apply keeps_dirs_mkdtemp | apply keeps_dirs_deepcopy
                         | apply keeps_dirs_callInThread ]).
Qed.

(** ** The chroot config of a run *)

Lemma symlink_Ok_inv src dst w w1 :
  symlink src dst w = (Ok tt, w1) →
  w1 = set_fs (w_dirs w) (<[dst := Symlink src]> (w_files w)) w.
Proof. unfold symlink. repeat case_match; intros; simplify_eq; done. Qed.

Lemma open_w_Ok_inv path w w1 :
  open_w path w = (Ok tt, w1) →
  w1 = set_fs (w_dirs w) (<[path := Regular ""]> (w_files w)) w.
Proof. unfold open_w. repeat case_match; intros; simplify_eq; done. Qed.

Lemma string_app_inv_head (a x y : string) : a +:+ x = a +:+ y → x = y.
Proof.
  induction a as [|c a IH]; [done|]. rewrite !app_cons. intros [= H]. by apply IH.
Qed.

Lemma join_inj_relative d a b :
  Path.startswith "/" a = false → Path.startswith "/" b = false →
  Path.join d a = Path.join d b → a = b.
Proof.
  intros Ha Hb. unfold Path.join. rewrite Ha, Hb.
  destruct (String.eqb d "" || Path.endswith_slash d); intros H.
  - by apply string_app_inv_head in H.
  - apply string_app_inv_head in H. by injection H.
Qed.

(** X17.  When [generate_mock_config] returns, the chroot config directory
    is a directory made by this call (nothing was at that path before)
    and the only directory the call added; the site-wide settings files
    are linked into it; and the template was rendered with the release's
    items, among them the [mock_dir] recorded by this call.  The config
    file is another path than the two links. *)
Theorem generate_mock_config_makes_the_config_directory (E : Env) (r : loc)
        (t m : string) (w w' : world) :
  dict_at r w !! "tmp_dir" = Some (VStr t) →
  dict_at r w !! "mock" = Some (VStr m) →
  let mock_dir := Path.join t "mock" in
  let defaults := Path.join mock_dir "site-defaults.cfg" in
  let logging := Path.join mock_dir "logging.ini" in
  Path.join mock_dir (m +:+ ".cfg") ≠ defaults →
  Path.join mock_dir (m +:+ ".cfg") ≠ logging →
  generate_mock_config E r w = (Ok tt, w') →
  exists_b mock_dir w = false
  ∧ w_dirs w' = {[mock_dir]} ∪ w_dirs w
  ∧ w_files w' !! defaults = Some (Symlink "/etc/mock/site-defaults.cfg")
  ∧ w_files w' !! logging = Some (Symlink "/etc/mock/logging.ini")
  ∧ ∃ text,
      render E (mock_tmpl E) (<["mock_dir" := VStr mock_dir]> (dict_at r w))
      = Ok text.
Proof.
  intros Ht Hm mock_dir defaults logging Hcd Hcl Hrun.
  unfold generate_mock_config in Hrun.
  revert Hrun. step_get Ht. step_pure. step_pure. fold mock_dir.
  set (w1 := set_heap _ w).
  assert (Hd1 : dict_at r w1 = <["mock_dir" := VStr mock_dir]> (dict_at r w))
    by apply dict_at_set_heap_eq.
  assert (Hmd1 : dict_at r w1 !! "mock_dir" = Some (VStr mock_dir))
    by (rewrite Hd1; apply lookup_insert_eq).
  assert (Hm1 : dict_at r w1 !! "mock" = Some (VStr m))
    by (rewrite Hd1, lookup_insert_ne; done).
  step_get Hmd1. step_get Hm1. step_pure. step_pure.
  fold defaults. fold logging.
  set (cfg := Path.join mock_dir (m +:+ ".cfg")) in *.
  intros Hrun.
  apply bind_inv_ok in Hrun as ([] & w2 & Hmk & Hrun).
  apply mkdir_Ok_inv in Hmk as [Hnew ->].
  apply bind_inv_ok in Hrun as ([] & w3 & Hs1 & Hrun).
  apply symlink_Ok_inv in Hs1 as ->.
  apply bind_inv_ok in Hrun as ([] & w4 & Hs2 & Hrun).
  apply symlink_Ok_inv in Hs2 as ->.
  apply bind_inv_ok in Hrun as ([] & w5 & Hop & Hrun).
  apply open_w_Ok_inv in Hop as ->.
  apply bind_inv_ok in Hrun as (text & w6 & Hev & Hrun).
  unfold eval in Hev. injection Hev as Hrender <-.
  unfold write in Hrun. injection Hrun as <-.
  assert (Hdl : defaults ≠ logging).
  { intros H. apply join_inj_relative in H; done. }
  split_and!.
  - exact Hnew.
  - reflexivity.
  - change (<[cfg := Regular text]>
              (<[cfg := Regular ""]>
                 (<[logging := Symlink "/etc/mock/logging.ini"]>
                    (<[defaults := Symlink "/etc/mock/site-defaults.cfg"]>
                       (w_files w)))) !! defaults = Some (Symlink "/etc/mock/site-defaults.cfg")).
    rewrite !lookup_insert_ne by done. apply lookup_insert_eq.
  - change (<[cfg := Regular text]>
              (<[cfg := Regular ""]>
                 (<[logging := Symlink "/etc/mock/logging.ini"]>
                    (<[defaults := Symlink "/etc/mock/site-defaults.cfg"]>
                       (w_files w)))) !! logging = Some (Symlink "/etc/mock/logging.ini")).
    rewrite !lookup_insert_ne by done. apply lookup_insert_eq.
  - exists text. rewrite <- Hd1. exact Hrender.
Qed.

Lemma generate_mock_config_makes_the_config_directory_witness :
  let w := (update_configs E_ok hub 2%positive (accepted E_ok)).2 in
  w_files (generate_mock_config E_ok 2%positive w).2
    !! "/tmp/tmpq3XaW1/mock/site-defaults.cfg"
  = Some (Symlink "/etc/mock/site-defaults.cfg")
  ∧ w_dirs (generate_mock_config E_ok 2%positive w).2
    = {["/tmp/tmpq3XaW1/mock"]} ∪ w_dirs w.
Proof.
  intros w.
  destruct (generate_mock_config_makes_the_config_directory E_ok 2%positive
              "/tmp/tmpq3XaW1" "fedora-rawhide-x86_64" w
              (generate_mock_config E_ok 2%positive w).2)
    as (_ & Hdirs & Hlink & _).
  - vm_compute. reflexivity.
  - vm_compute. reflexivity.
  - vm_compute. discriminate.
  - vm_compute. discriminate.
  - apply run_eq. vm_compute. reflexivity.
  - split; [exact Hlink | exact Hdirs].
Defined.

(** X18.  [generate_mock_config] does not reuse a chroot config directory:
    when anything is at [tmp_dir/mock] already, [os.mkdir] raises
    [OSError EEXIST] for it, nothing is written, and the release dict has
    [mock_dir] recorded all the same. *)
Theorem generate_mock_config_refuses_an_existing_directory (E : Env) (r : loc)
        (t m : string) (w : world) :
  dict_at r w !! "tmp_dir" = Some (VStr t) →
  dict_at r w !! "mock" = Some (VStr m) →
  exists_b (Path.join t "mock") w = true →
  let mock_dir := Path.join t "mock" in
  ∃ w1,
    generate_mock_config E r w = (Raise (OSError EEXIST mock_dir), w1)
    ∧ w_dirs w1 = w_dirs w ∧ w_files w1 = w_files w
    ∧ dict_at r w1 !! "mock_dir" = Some (VStr mock_dir).
Proof.
  intros Ht Hm Hex mock_dir. unfold generate_mock_config.
  step_get Ht. step_pure. step_pure. fold mock_dir.
  set (w1 := set_heap _ w).
  assert (Hd1 : dict_at r w1 = <["mock_dir" := VStr mock_dir]> (dict_at r w))
    by apply dict_at_set_heap_eq.
  assert (Hmd1 : dict_at r w1 !! "mock_dir" = Some (VStr mock_dir))
    by (rewrite Hd1; apply lookup_insert_eq).
  assert (Hm1 : dict_at r w1 !! "mock" = Some (VStr m))
    by (rewrite Hd1, lookup_insert_ne; done).
  step_get Hmd1. step_get Hm1. step_pure. step_pure.
  exists w1. split_and!; [| done | done | exact Hmd1].
  apply bind_raise. unfold mkdir.
  replace (exists_b mock_dir w1) with true by (symmetry; exact Hex).
  reflexivity.
Qed.

Lemma generate_mock_config_refuses_an_existing_directory_witness :
  (generate_mock_config E_ok 2%positive (at_init_mock E_ok 2%positive (accepted E_ok))).1
  = Raise (OSError EEXIST "/tmp/tmpq3XaW1/mock").
Proof.
  destruct (generate_mock_config_refuses_an_existing_directory E_ok 2%positive
              "/tmp/tmpq3XaW1" "fedora-rawhide-x86_64"
              (at_init_mock E_ok 2%positive (accepted E_ok)))
    as (w1 & Hrun & _).
  - vm_compute. reflexivity.
  - vm_compute. reflexivity.
  - vm_compute. reflexivity.
  - rewrite Hrun. reflexivity.
Defined.
